(** * Synced-lyrics core of ytmusicapi: provider contract, LRC parser,
      aggregating searcher

    Shallow embedding of [ytmusicapi/providers/base.py] and
    [ytmusicapi/providers/searcher.py].

    Conventions of the embedding.
    - A Python [str] is a [string]; a character is a code point below 256
      (the Latin-1 block of Unicode), so [\d] is ['0'..'9'] and the white
      space of [str.strip()] is the table [is_space] below.
    - A Python [int] is a [Z].
    - [Optional[T]] is [option T]; a call that can raise returns [option]
      ([None] = an exception was raised) unless said otherwise.
    - The outside world a provider talks to (network, HTTP sessions) is an
      abstract state [World] threaded through every provider call. *)

From Stdlib Require Import ZArith Ascii String List Sorted Permutation Lia.
From stdpp Require Import base option list gmap strings.

Local Open Scope Z_scope.

(** String concatenation unfolds on a constructor, as list append does. *)
#[local] Arguments String.append !_ _ / : simpl nomatch.

(* ===================================================================== *)
(** ** Python string primitives used by the code *)
(* ===================================================================== *)

Module Py.

(** Decimal digits among the code points below 256: what [\d] matches and
    what [int()] reads. *)
Definition is_digit (c : ascii) : bool :=
  let n := N_of_ascii c in ((48 <=? n) && (n <=? 57))%N.

Definition digit_value (c : ascii) : Z := Z.of_N (N_of_ascii c) - 48.

(** [str.isspace()] on code points below 256: TAB, LF, VT, FF, CR,
    FS, GS, RS, US, SPACE, NEL (0x85) and NBSP (0xA0). *)
Definition is_space (c : ascii) : bool :=
  let n := N_of_ascii c in
  (((9 <=? n) && (n <=? 13)) || ((28 <=? n) && (n <=? 32))
   || (n =? 133) || (n =? 160))%N.

Definition newline : ascii := ascii_of_N 10.

(** [bool(s)] for a string: non-empty. *)
Definition truthy (s : string) : bool :=
  match s with EmptyString => false | String _ _ => true end.

Fixpoint lstrip (s : string) : string :=
  match s with
  | String c s' => if is_space c then lstrip s' else s
  | EmptyString => EmptyString
  end.

Fixpoint rstrip (s : string) : string :=
  match s with
  | String c s' =>
      match rstrip s' with
      | EmptyString => if is_space c then EmptyString else String c EmptyString
      | r => String c r
      end
  | EmptyString => EmptyString
  end.

(** [s.strip()] *)
Definition strip (s : string) : string := rstrip (lstrip s).

Fixpoint replicate_char (n : nat) (c : ascii) : string :=
  match n with O => EmptyString | S n' => String c (replicate_char n' c) end.

(** [s.ljust(width, fill)] *)
Definition ljust (width : nat) (fill : ascii) (s : string) : string :=
  s +:+ replicate_char (width - String.length s) fill.

(** [s[:n]] *)
Fixpoint slice_to (n : nat) (s : string) : string :=
  match n, s with
  | S n', String c s' => String c (slice_to n' s')
  | _, _ => EmptyString
  end.

(** [s.split('\n')]: always at least one piece. *)
Fixpoint split_newline (s : string) : list string :=
  match s with
  | EmptyString => [EmptyString]
  | String c s' =>
      if Ascii.eqb c newline then EmptyString :: split_newline s'
      else match split_newline s' with
           | piece :: rest => String c piece :: rest
           | [] => [String c EmptyString]
           end
  end.

(** ["\n".join(pieces)] *)
Fixpoint join_newline (pieces : list string) : string :=
  match pieces with
  | [] => EmptyString
  | [p] => p
  | p :: rest => p +:+ String newline (join_newline rest)
  end.

(** [int(s)] in base 10: optional surrounding white space, an optional
    sign, then digits with single underscores allowed between digits.
    [None] is [ValueError]. *)
Fixpoint int_digits (acc : Z) (s : string) : option Z :=
  match s with
  | EmptyString => Some acc
  | String c s' =>
      if is_digit c then int_digits (10 * acc + digit_value c) s'
      else if Ascii.eqb c "_" then
        match s' with
        | String d s'' =>
            if is_digit d then int_digits (10 * acc + digit_value d) s''
            else None
        | EmptyString => None
        end
      else None
  end.

Definition int_unsigned (s : string) : option Z :=
  match s with
  | String d s' => if is_digit d then int_digits (digit_value d) s' else None
  | EmptyString => None
  end.

Definition int (s : string) : option Z :=
  match strip s with
  | String c s' =>
      if Ascii.eqb c "+" then int_unsigned s'
      else if Ascii.eqb c "-" then Z.opp <$> int_unsigned s'
      else int_unsigned (String c s')
  | EmptyString => None
  end.

(** [sorted(l, key=key)]: Python's sort is stable, and a stable sort has
    one possible result, so it is modelled by stable insertion: an element
    is placed before the first later element whose key is not smaller. *)
Section Sorted.
Context {A : Type} (key : A → Z).

Fixpoint insert_by (x : A) (l : list A) : list A :=
  match l with
  | [] => [x]
  | y :: l' => if key x <=? key y then x :: l else y :: insert_by x l'
  end.

Definition sorted (l : list A) : list A := foldr insert_by [] l.
End Sorted.

End Py.

(* ===================================================================== *)
(** ** The fragment of [re] the two patterns use *)
(* ===================================================================== *)

(** Both patterns of searcher.py are sequences of character classes, each
    with a greedy repetition count and possibly a capture group around it.
    [re] matches such a sequence by backtracking: each item first takes as
    many characters as it may, and gives them back one at a time when the
    rest of the pattern fails. *)
Module Re.

Record token := Token {
  captured : bool;            (* is the item wrapped in ( ) *)
  cls : ascii → bool;         (* the character class *)
  lo : nat;                   (* least number of repetitions *)
  hi : option nat             (* most repetitions; None = unbounded *)
}.

Definition may_take (hi : option nat) : bool :=
  match hi with Some O => false | _ => true end.

(** Greedy repetition with backtracking; [k matched rest] continues with
    the remainder of the pattern. *)
Fixpoint greedy {R : Type} (cl : ascii → bool) (lo : nat) (hi : option nat)
    (s : string) (k : string → string → option R) : option R :=
  let stop := match lo with O => k EmptyString s | S _ => None end in
  match s with
  | String c s' =>
      if cl c && may_take hi then
        match greedy cl (Nat.pred lo) (Nat.pred <$> hi) s'
                (λ m r, k (String c m) r) with
        | Some x => Some x
        | None => stop
        end
      else stop
  | EmptyString => stop
  end.

(** [re.match(pattern, s)]: the pattern anchored at the start of [s];
    returns [match.groups()]. *)
Fixpoint re_match (p : list token) (s : string) : option (list string) :=
  match p with
  | [] => Some []
  | t :: p' =>
      greedy (cls t) (lo t) (hi t) s
        (λ m r, match re_match p' r with
                | Some gs => Some (if captured t then m :: gs else gs)
                | None => None
                end)
  end.

(** [re.search(pattern, s)]: the first position where the pattern
    matches. *)
Fixpoint re_search (p : list token) (s : string) : option (list string) :=
  match re_match p s with
  | Some gs => Some gs
  | None =>
      match s with
      | String _ s' => re_search p s'
      | EmptyString => None
      end
  end.

Definition lit (c : ascii) : token := Token false (Ascii.eqb c) 1 (Some 1%nat).
Definition digits (grp : bool) (lo hi : nat) : token :=
  Token grp Py.is_digit lo (Some hi).
(** [.] without DOTALL: anything but a newline. *)
Definition dot (c : ascii) : bool := negb (Ascii.eqb c Py.newline).
Definition dot_or_colon (c : ascii) : bool :=
  Ascii.eqb c "." || Ascii.eqb c ":".

End Re.

(* ===================================================================== *)
(** ** providers/base.py *)
(* ===================================================================== *)

Record LyricLine := mkLyricLine {
  timestamp : string;      (* "[mm:ss.xx]" *)
  text : string;
  milliseconds : Z
}.

Record SyncedLyrics := mkSyncedLyrics {
  track : string;
  artist : string;
  lrc : string;            (* raw text as the provider returned it *)
  lines : list LyricLine;
  source : string
}.

Definition to_lrc (self : SyncedLyrics) : string := lrc self.

Definition to_plain_text (self : SyncedLyrics) : string :=
  Py.join_newline
    (text <$> List.filter (λ line, Py.truthy (text line)) (lines self)).

(** The loop of [get_line_at]: [current_line] is overwritten while lines
    start at or before the requested time; the first later line breaks. *)
Fixpoint get_line_at_loop (ls : list LyricLine) (ms : Z)
    (current_line : option LyricLine) : option LyricLine :=
  match ls with
  | [] => current_line
  | line :: rest =>
      if milliseconds line <=? ms then get_line_at_loop rest ms (Some line)
      else current_line
  end.

Definition get_line_at (self : SyncedLyrics) (ms : Z) : option LyricLine :=
  get_line_at_loop (lines self) ms None.

(* ===================================================================== *)
(** ** providers/searcher.py: classifier and LRC parser *)
(* ===================================================================== *)

(** The pattern of [_is_synced], item by item:
    \[  \d{2}  :  \d{2} *)
Definition synced_pattern : list Re.token :=
  [ Re.lit "["; Re.digits false 2 2; Re.lit ":"; Re.digits false 2 2 ].

(** The pattern of [_parse_lrc], item by item:
    \[  (\d{2})  :  (\d{2})  [\.:]+  (\d{2,3})  \]  ( .* ) *)
Definition lrc_pattern : list Re.token :=
  [ Re.lit "["; Re.digits true 2 2; Re.lit ":"; Re.digits true 2 2;
    Re.Token false Re.dot_or_colon 1 None; Re.digits true 2 3; Re.lit "]";
    Re.Token true Re.dot 0 None ].

Definition _is_synced (lrc : string) : bool :=
  bool_decide (is_Some (Re.re_search synced_pattern lrc)).

(** The body of the parser's loop for one piece of [lrc.split('\n')]:
    the lines it appends ([[]] when the piece is blank or has no leading
    tag), or [None] when a call in it raises ([int] on a group, or the
    unpacking of [match.groups()] into four names). *)
Definition parse_line (line : string) : option (list LyricLine) :=
  let line := Py.strip line in
  if negb (Py.truthy line) then Some []
  else
    match Re.re_match lrc_pattern line with
    | Some [mins; secs; ms; text] =>
        let ms := Py.slice_to 3 (Py.ljust 3 "0" ms) in
        m ← Py.int mins;
        s ← Py.int secs;
        f ← Py.int ms;
        let total_ms := m * 60000 + s * 1000 + f in
        let timestamp :=
          "[" +:+ mins +:+ ":" +:+ secs +:+ "." +:+ Py.slice_to 2 ms +:+ "]" in
        Some [ mkLyricLine timestamp (Py.strip text) total_ms ]
    | Some _ => None
    | None => Some []
    end.

Fixpoint parse_loop (pieces : list string) (lines : list LyricLine)
    : option (list LyricLine) :=
  match pieces with
  | [] => Some lines
  | line :: rest =>
      new ← parse_line line;
      parse_loop rest (lines ++ new)
  end.

Definition _parse_lrc (lrc : string) : option (list LyricLine) :=
  lines ← parse_loop (Py.split_newline lrc) [];
  Some (Py.sorted milliseconds lines).

(* ===================================================================== *)
(** ** providers/searcher.py: the aggregating searcher *)
(* ===================================================================== *)

(** The three provider classes registered in [PROVIDERS]. *)
Inductive provider_class := LrcLibProvider | NetEaseProvider | MegalobizProvider.

(** A provider object: its class and its identity (every call of a class
    allocates a new object). *)
Record LyricsProvider := mkProvider {
  provider_cls : provider_class;
  provider_id : nat
}.

Definition PROVIDERS : gmap string provider_class :=
  <[ "lrclib" := LrcLibProvider ]>
    (<[ "netease" := NetEaseProvider ]>
       (<[ "megalobiz" := MegalobizProvider ]> ∅)).

Definition DEFAULT_ORDER : list string := [ "lrclib"; "netease"; "megalobiz" ].

(** The loop of [__init__]; [next_id] is the identity the next allocated
    object gets. *)
Fixpoint init_loop (names : list string) (next_id : nat)
    (acc : list (string * LyricsProvider)) : list (string * LyricsProvider) :=
  match names with
  | [] => acc
  | name :: rest =>
      match PROVIDERS !! name with
      | Some cl => init_loop rest (S next_id) (acc ++ [(name, mkProvider cl next_id)])
      | None => init_loop rest next_id acc
      end
  end.

(** [SyncedLyricsSearcher(providers)]: the value of [self._providers]. *)
Definition __init__ (providers : option (list string)) (next_id : nat)
    : list (string * LyricsProvider) :=
  let providers := default DEFAULT_ORDER providers in
  init_loop providers next_id [].

(** What one call of [provider.get_lyrics(track, artist)] does: it returns
    text or [None], or raises an [Exception], the class the searcher's
    [except Exception] catches.  Signals outside that class (an interrupt,
    an interpreter exit) end the whole program and are not modelled. *)
Inductive outcome :=
  | Returned (r : option string)
  | Raised.

Section Searcher.

(** The world outside the core (network, sessions) and the providers'
    behaviour in it; the concrete providers are collaborators of the
    core. *)
Context {World : Type}.
Variable get_lyrics :
  LyricsProvider → string → string → World → outcome * World.

(** The work of one iteration once [get_lyrics] returned non-empty text
    and the synced-only gate let it through: [None] when building the
    document raised (caught by [except Exception]). *)
Definition build (track artist lrc provider_name : string)
    : option SyncedLyrics :=
  lines ← (if _is_synced lrc then _parse_lrc lrc else Some []);
  Some (mkSyncedLyrics track artist lrc lines provider_name).

Fixpoint search (providers : list (string * LyricsProvider))
    (track artist : string) (synced_only : bool) (w : World)
    : option SyncedLyrics * World :=
  match providers with
  | [] => (None, w)
  | (provider_name, provider) :: rest =>
      match get_lyrics provider track artist w with
      | (Returned (Some lrc), w') =>
          if Py.truthy lrc then
            let is_synced := _is_synced lrc in
            if synced_only && negb is_synced then
              search rest track artist synced_only w'
            else
              match build track artist lrc provider_name with
              | Some doc => (Some doc, w')
              | None => search rest track artist synced_only w'
              end
          else search rest track artist synced_only w'
      | (Returned None, w') => search rest track artist synced_only w'
      | (Raised, w') => search rest track artist synced_only w'
      end
  end.

Fixpoint search_all_loop (providers : list (string * LyricsProvider))
    (track artist : string) (results : list SyncedLyrics) (w : World)
    : list SyncedLyrics * World :=
  match providers with
  | [] => (results, w)
  | (provider_name, provider) :: rest =>
      match get_lyrics provider track artist w with
      | (Returned (Some lrc), w') =>
          if Py.truthy lrc then
            match build track artist lrc provider_name with
            | Some doc => search_all_loop rest track artist (results ++ [doc]) w'
            | None => search_all_loop rest track artist results w'
            end
          else search_all_loop rest track artist results w'
      | (Returned None, w') => search_all_loop rest track artist results w'
      | (Raised, w') => search_all_loop rest track artist results w'
      end
  end.

Definition search_all (providers : list (string * LyricsProvider))
    (track artist : string) (w : World) : list SyncedLyrics * World :=
  search_all_loop providers track artist [] w.

(** Specification side: the providers queried one after the other, all of
    them, with what each did. *)
Fixpoint query_all (providers : list (string * LyricsProvider))
    (track artist : string) (w : World) : list (string * outcome) * World :=
  match providers with
  | [] => ([], w)
  | (provider_name, provider) :: rest =>
      let '(o, w') := get_lyrics provider track artist w in
      let '(os, w'') := query_all rest track artist w' in
      ((provider_name, o) :: os, w'')
  end.

End Searcher.

(* ===================================================================== *)
(** ** Vocabulary of the statements *)
(* ===================================================================== *)

Module Text.

(** Every character of [s] satisfies [f]. *)
Fixpoint all_chars (f : ascii → bool) (s : string) : bool :=
  match s with
  | EmptyString => true
  | String c s' => f c && all_chars f s'
  end.

(** Value of a string of decimal digits, most significant first. *)
Fixpoint decimal_from (acc : Z) (s : string) : Z :=
  match s with
  | EmptyString => acc
  | String c s' => decimal_from (10 * acc + Py.digit_value c) s'
  end.

Definition decimal (s : string) : Z := decimal_from 0 s.

End Text.

(** [s] starts with an opening bracket, two digits, a colon and two
    digits. *)
Definition starts_with_tag_opening (s : string) : Prop :=
  ∃ d1 d2 d3 d4 post,
    s = String "[" (String d1 (String d2 (String ":" (String d3 (String d4 post)))))
    ∧ Py.is_digit d1 = true ∧ Py.is_digit d2 = true
    ∧ Py.is_digit d3 = true ∧ Py.is_digit d4 = true.

(** [s] contains a substring of that shape. *)
Definition contains_tag_opening (s : string) : Prop :=
  ∃ pre rest, s = pre +:+ rest ∧ starts_with_tag_opening rest.

Module Order.
Section WithKey.
Context {A : Type} (key : A → Z).

(** Keys never decrease along the list. *)
Definition nondecreasing (l : list A) : Prop :=
  Sorted (λ a b, key a ≤ key b) l.

Definition le_key (a b : A) : Prop := key a ≤ key b.
End WithKey.
End Order.

(** The lines the loop collects from some pieces, in the order of the
    pieces. *)
Definition lines_in_order (pieces : list string) : list LyricLine :=
  pieces ≫= λ p, default [] (parse_line p).

(** Order of lines by offset. *)
Definition le_ms := Order.le_key milliseconds.

Definition nondecreasing_ms : list LyricLine → Prop :=
  Order.nondecreasing milliseconds.

(** The document the searcher builds from the text [raw] of the provider
    registered as [name]. *)
Definition document (trk art raw name : string) : SyncedLyrics :=
  mkSyncedLyrics trk art raw
    (if _is_synced raw then default [] (_parse_lrc raw) else []) name.

(** What [search] accepts from a provider: non-empty text that is synced
    when [synced_only] is set. *)
Definition acceptable (synced_only : bool) (o : outcome) : bool :=
  match o with
  | Returned (Some raw) => Py.truthy raw && (negb synced_only || _is_synced raw)
  | _ => false
  end.

(** What [search_all] keeps from a provider: any non-empty text. *)
Definition document_of (trk art : string) (no : string * outcome)
    : option SyncedLyrics :=
  match no.2 with
  | Returned (Some raw) =>
      if Py.truthy raw then Some (document trk art raw no.1) else None
  | _ => None
  end.

(** The provider returned non-empty text. *)
Definition has_text (o : outcome) : bool :=
  match o with
  | Returned (Some raw) => Py.truthy raw
  | _ => false
  end.

(** A name registered in [PROVIDERS]. *)
Definition recognized (name : string) : Prop := is_Some (PROVIDERS !! name).

(** A world and a provider behaviour to run the searcher on: the world is
    the log of the provider objects called so far, and what an object does
    is fixed by its identity. *)
Module Demo.

(** A synced text whose lines are out of order. *)
Definition two_lines : string :=
  Py.join_newline ["[00:02.00]two"; "[00:01.00]one"].

Definition get_lyrics (p : LyricsProvider) (trk art : string) (w : list nat)
    : outcome * list nat :=
  let w' := w ++ [provider_id p] in
  match provider_id p with
  | 0%nat => (Raised, w')
  | 1%nat => (Returned None, w')
  | 2%nat => (Returned (Some EmptyString), w')
  | 3%nat => (Returned (Some "la la la"), w')
  | 4%nat => (Returned (Some two_lines), w')
  | _ => (Returned (Some "[00:09.00]late"), w')
  end.

Definition provider (n : nat) : string * LyricsProvider :=
  (match n with
   | 0%nat | 3%nat => "lrclib" | 1%nat | 4%nat => "netease" | _ => "megalobiz"
   end,
   mkProvider (match n with
               | 0%nat | 3%nat => LrcLibProvider
               | 1%nat | 4%nat => NetEaseProvider
               | _ => MegalobizProvider
               end) n).

End Demo.

(* ===================================================================== *)
(** ** Further vocabulary *)
(* ===================================================================== *)

(** [t] occurs in [s] as a contiguous substring. *)
Definition substring (t s : string) : Prop := ∃ a b, s = a +:+ t +:+ b.

(** The part of [s] before its first newline (all of [s] when it has
    none): what the last group of the parser's pattern captures. *)
Fixpoint before_newline (s : string) : string :=
  match s with
  | EmptyString => EmptyString
  | String c s' =>
      if Ascii.eqb c Py.newline then EmptyString else String c (before_newline s')
  end.

(** The rest of [s] from its first newline on. *)
Fixpoint from_newline (s : string) : string :=
  match s with
  | EmptyString => EmptyString
  | String c s' => if Ascii.eqb c Py.newline then s else from_newline s'
  end.

(** Reading a display timestamp "[mm:ss.xx]" back as a number of
    hundredths of a second. *)
Definition timestamp_centis (ts : string) : option Z :=
  match ts with
  | String b (String m1 (String m2 (String c (String s1 (String s2
      (String d (String f1 (String f2 (String e EmptyString))))))))) =>
      if Ascii.eqb b "[" && Ascii.eqb c ":" && Ascii.eqb d "." && Ascii.eqb e "]"
         && Py.is_digit m1 && Py.is_digit m2 && Py.is_digit s1
         && Py.is_digit s2 && Py.is_digit f1 && Py.is_digit f2
      then Some ((10 * Py.digit_value m1 + Py.digit_value m2) * 6000
                 + (10 * Py.digit_value s1 + Py.digit_value s2) * 100
                 + 10 * Py.digit_value f1 + Py.digit_value f2)
      else None
  | _ => None
  end.

(** The shape of a line the parser accepts: a tag with two-digit minutes
    and seconds, one or more separators, a fraction of two or three digits,
    then anything. *)
Definition tagged_line (s mm ss seps ff tail : string) : Prop :=
  s = "[" +:+ mm +:+ ":" +:+ ss +:+ seps +:+ ff +:+ "]" +:+ tail
  ∧ String.length mm = 2%nat ∧ Text.all_chars Py.is_digit mm = true
  ∧ String.length ss = 2%nat ∧ Text.all_chars Py.is_digit ss = true
  ∧ seps ≠ EmptyString ∧ Text.all_chars Re.dot_or_colon seps = true
  ∧ (2 ≤ String.length ff ≤ 3)%nat ∧ Text.all_chars Py.is_digit ff = true.

(** The line the parser builds from the parts of a tagged line. *)
Definition line_of_tag (mm ss ff tail : string) : LyricLine :=
  {| timestamp := "[" +:+ mm +:+ ":" +:+ ss +:+ "." +:+ Py.slice_to 2 ff +:+ "]";
     text := Py.strip (before_newline tail);
     milliseconds :=
       Text.decimal mm * 60000 + Text.decimal ss * 1000
       + Text.decimal (Py.slice_to 3 (Py.ljust 3 "0" ff)) |}.

(** How two optional lines compare: nothing is before everything. *)
Definition not_after (o1 o2 : option LyricLine) : Prop :=
  match o1, o2 with
  | None, _ => True
  | Some a, Some b => milliseconds a ≤ milliseconds b
  | Some _, None => False
  end.

(** The entries of the [PROVIDERS] literal in the order they are written,
    which a Python dict keeps; [PROVIDERS] is the same map without the
    order. *)
Definition PROVIDERS_items : list (string * provider_class) :=
  [ ("lrclib", LrcLibProvider); ("netease", NetEaseProvider);
    ("megalobiz", MegalobizProvider) ].

(** [SyncedLyricsSearcher.available_providers()]:
    [list(cls.PROVIDERS.keys())]. *)
Definition available_providers : list string := PROVIDERS_items.*1.

(** A document passes the synced-only gate. *)
Definition passes_gate (synced_only : bool) (doc : SyncedLyrics) : bool :=
  negb synced_only || _is_synced (lrc doc).

(** The texts of the lines that have one, in order: what [to_plain_text]
    joins. *)
Definition texts_of (doc : SyncedLyrics) : list string :=
  text <$> List.filter (λ line, Py.truthy (text line)) (lines doc).

(** Carriage return. *)
Definition carriage_return : ascii := ascii_of_N 13.

(* ===================================================================== *)
(** ** [re.sub] and [str.replace], and the text cleaners built on them *)
(* ===================================================================== *)

(** The patterns of the cleaners are again sequences of repeated character
    classes; some repetitions are lazy (as few characters as possible
    first) and a pattern may end in [$]. *)
Module ReSub.

Inductive item :=
  | Rep (greedy : bool) (cl : ascii → bool) (lo : nat) (hi : option nat)
  | EndOfString.   (* [$] without MULTILINE *)

(** Lazy repetition with backtracking: try the rest of the pattern first,
    take one more character only when that fails. *)
Fixpoint lazy {R : Type} (cl : ascii → bool) (lo : nat) (hi : option nat)
    (s : string) (k : string → string → option R) : option R :=
  match (match lo with O => k EmptyString s | S _ => None end) with
  | Some x => Some x
  | None =>
      match s with
      | String c s' =>
          if cl c && Re.may_take hi then
            lazy cl (Nat.pred lo) (Nat.pred <$> hi) s' (λ m r, k (String c m) r)
          else None
      | EmptyString => None
      end
  end.

(** [$]: at the end of the string, or just before a newline that ends
    it. *)
Definition at_end (s : string) : bool :=
  match s with
  | EmptyString => true
  | String c EmptyString => Ascii.eqb c Py.newline
  | _ => false
  end.

(** The pattern anchored at the start of [s]: what is left of [s] after
    the match. *)
Fixpoint match_rest (p : list item) (s : string) : option string :=
  match p with
  | [] => Some s
  | Rep true cl lo hi :: p' => Re.greedy cl lo hi s (λ _ r, match_rest p' r)
  | Rep false cl lo hi :: p' => lazy cl lo hi s (λ _ r, match_rest p' r)
  | EndOfString :: p' => if at_end s then match_rest p' s else None
  end.

(** [re.sub(p, repl, s)] for a replacement without group references:
    scan from the left; where the pattern matches, emit [repl] and go on
    after the match ([skip] counts the matched characters still to pass);
    elsewhere keep the character.  An empty match emits [repl] and keeps
    the character. *)
Fixpoint sub_from (p : list item) (repl : string) (skip : nat) (s : string)
    : string :=
  match s with
  | EmptyString =>
      match match_rest p EmptyString with
      | Some _ => repl
      | None => EmptyString
      end
  | String c s' =>
      match skip with
      | S n => sub_from p repl n s'
      | O =>
          match match_rest p s with
          | Some r =>
              match (String.length s - String.length r)%nat with
              | O => repl +:+ String c (sub_from p repl 0 s')
              | S n => repl +:+ sub_from p repl n s'
              end
          | None => String c (sub_from p repl 0 s')
          end
      end
  end.

Definition sub (p : list item) (repl s : string) : string :=
  sub_from p repl 0 s.

Definition one (cl : ascii → bool) : item := Rep true cl 1 (Some 1%nat).
Definition lit (c : ascii) : item := one (Ascii.eqb c).

(** A letter under IGNORECASE, given in lower case. *)
Definition letter (lower : ascii) : item :=
  one (λ c, Ascii.eqb c lower
            || Ascii.eqb c (ascii_of_N (N_of_ascii lower - 32))).

End ReSub.

Module PyStr.

(** [s.replace(old, new)] for a non-empty [old]: every occurrence, from
    the left, not overlapping. *)
Fixpoint replace_from (old new : string) (skip : nat) (s : string) : string :=
  match s with
  | EmptyString => EmptyString
  | String c s' =>
      match skip with
      | S n => replace_from old new n s'
      | O =>
          if String.prefix old s
          then new +:+ replace_from old new (String.length old - 1) s'
          else String c (replace_from old new 0 s')
      end
  end.

Definition replace (old new s : string) : string := replace_from old new 0 s.

(** What [\w] matches among the code points below 256: the characters
    with [isalnum()], and the underscore. *)
Definition is_word (c : ascii) : bool :=
  let n := N_of_ascii c in
  (((48 <=? n) && (n <=? 57)) || ((65 <=? n) && (n <=? 90)) || (n =? 95)
   || ((97 <=? n) && (n <=? 122)) || (n =? 170) || ((178 <=? n) && (n <=? 179))
   || (n =? 181) || ((185 <=? n) && (n <=? 186)) || ((188 <=? n) && (n <=? 190))
   || ((192 <=? n) && (n <=? 214)) || ((216 <=? n) && (n <=? 246))
   || ((248 <=? n) && (n <=? 255)))%N.

End PyStr.

(** *** providers/megalobiz.py: [_clean_lrc] *)

(** The pattern "<br\s*/?>". *)
Definition br_pattern : list ReSub.item :=
  [ ReSub.lit "<"; ReSub.lit "b"; ReSub.lit "r";
    ReSub.Rep true Py.is_space 0 None;
    ReSub.Rep true (Ascii.eqb "/") 0 (Some 1%nat); ReSub.lit ">" ].

(** The pattern "<[^>]+>". *)
Definition tag_pattern : list ReSub.item :=
  [ ReSub.lit "<"; ReSub.Rep true (λ c, negb (Ascii.eqb c ">")) 1 None;
    ReSub.lit ">" ].

(** The first part of [_clean_lrc]: line breaks, tags, entities. *)
Definition decode_html (lrc : string) : string :=
  let lrc := ReSub.sub br_pattern (String Py.newline EmptyString) lrc in
  let lrc := ReSub.sub tag_pattern EmptyString lrc in
  let lrc := PyStr.replace "&nbsp;" " " lrc in
  let lrc := PyStr.replace "&amp;" "&" lrc in
  let lrc := PyStr.replace "&lt;" "<" lrc in
  let lrc := PyStr.replace "&gt;" ">" lrc in
  let lrc := PyStr.replace "&#39;" "'" lrc in
  PyStr.replace "&quot;" (String (ascii_of_N 34) EmptyString) lrc.

(** The second part: every line stripped, blank lines dropped. *)
Definition tidy_lines (lrc : string) : string :=
  let lines := Py.strip <$> Py.split_newline lrc in
  Py.join_newline (List.filter Py.truthy lines).

Definition _clean_lrc (lrc : string) : string := tidy_lines (decode_html lrc).

(** *** providers/base.py: [LyricsProvider._clean_query] *)

Definition opening_bracket (c : ascii) : bool := Ascii.eqb c "(" || Ascii.eqb c "[".
Definition closing_bracket (c : ascii) : bool := Ascii.eqb c ")" || Ascii.eqb c "]".
Definition punctuation (c : ascii) : bool :=
  negb (PyStr.is_word c || Py.is_space c).

(** The pattern "\s*[\(\[].*?[\)\]]". *)
Definition bracketed_pattern : list ReSub.item :=
  [ ReSub.Rep true Py.is_space 0 None; ReSub.one opening_bracket;
    ReSub.Rep false Re.dot 0 None; ReSub.one closing_bracket ].

(** The pattern "[^\w\s]". *)
Definition punctuation_pattern : list ReSub.item := [ ReSub.one punctuation ].

(** The pattern "\s+". *)
Definition spaces_pattern : list ReSub.item :=
  [ ReSub.Rep true Py.is_space 1 None ].

Definition _clean_query (text : string) : string :=
  let text := ReSub.sub bracketed_pattern EmptyString text in
  let text := ReSub.sub punctuation_pattern " " text in
  let text := ReSub.sub spaces_pattern " " text in
  Py.strip text.

(** The pattern matches at no position of [s] (the end included). *)
Fixpoint never_matches (p : list ReSub.item) (s : string) : Prop :=
  match s with
  | EmptyString => ReSub.match_rest p EmptyString = None
  | String _ s' => ReSub.match_rest p s = None ∧ never_matches p s'
  end.

(** The text has neither a tag opener nor an entity opener. *)
Definition markup_free (s : string) : bool :=
  Text.all_chars (λ c, negb (Ascii.eqb c "<") && negb (Ascii.eqb c "&")) s.

(** [sep.join(pieces)]. *)
Fixpoint join_with (sep : string) (pieces : list string) : string :=
  match pieces with
  | [] => EmptyString
  | [p] => p
  | p :: rest => p +:+ sep +:+ join_with sep rest
  end.

(** A line-break tag as the cleaner recognizes it: "<br", white space, an
    optional "/", ">". *)
Definition br_tag (t : string) : Prop :=
  ∃ ws slash, t = "<br" +:+ ws +:+ slash +:+ ">"
              ∧ Text.all_chars Py.is_space ws = true
              ∧ (slash = EmptyString ∨ slash = "/").

(** A word character or a plain space. *)
Definition word_or_space (c : ascii) : bool :=
  PyStr.is_word c || Ascii.eqb c " ".

(** No two spaces in a row. *)
Fixpoint single_spaced (s : string) : bool :=
  match s with
  | EmptyString => true
  | String a t =>
      match t with
      | String b _ => negb (Ascii.eqb a " " && Ascii.eqb b " ")
      | EmptyString => true
      end && single_spaced t
  end.

(** Words separated by single spaces: only word characters and spaces, no
    two spaces in a row, no space at either end. *)
Definition clean_text (s : string) : Prop :=
  Text.all_chars word_or_space s = true
  ∧ single_spaced s = true
  ∧ Py.strip s = s.

(** What the collapsed text looks like, given input of word characters and
    white space. *)
Definition collapsed (s out : string) : Prop :=
  Text.all_chars word_or_space out = true
  ∧ single_spaced out = true
  ∧ match s with
    | String c _ =>
        if Py.is_space c then ∃ t, out = String " " t
        else ∃ t, out = String c t
    | EmptyString => out = EmptyString
    end.

(** *** mixins/lyrics.py: [LyricsMixin._clean_artist_name] *)

(** The pattern "\s*-\s*Topic$" under IGNORECASE. *)
Definition topic_pattern : list ReSub.item :=
  [ ReSub.Rep true Py.is_space 0 None; ReSub.lit "-";
    ReSub.Rep true Py.is_space 0 None;
    ReSub.letter "t"; ReSub.letter "o"; ReSub.letter "p"; ReSub.letter "i";
    ReSub.letter "c"; ReSub.EndOfString ].

(** The pattern "VEVO$" under IGNORECASE. *)
Definition vevo_pattern : list ReSub.item :=
  [ ReSub.letter "v"; ReSub.letter "e"; ReSub.letter "v"; ReSub.letter "o";
    ReSub.EndOfString ].

Definition _clean_artist_name (artist : string) : string :=
  let artist := ReSub.sub topic_pattern EmptyString artist in
  let artist := ReSub.sub vevo_pattern EmptyString artist in
  Py.strip artist.

(** [s] is the word [lower] (given in lower case) in any mix of cases. *)
Fixpoint spells (lower s : string) : bool :=
  match lower, s with
  | EmptyString, EmptyString => true
  | String l lower', String c s' =>
      (Ascii.eqb c l || Ascii.eqb c (ascii_of_N (N_of_ascii l - 32)))
      && spells lower' s'
  | _, _ => false
  end.

(** The last character of a string. *)
Fixpoint last_char (s : string) : option ascii :=
  match s with
  | EmptyString => None
  | String c EmptyString => Some c
  | String _ s' => last_char s'
  end.

(* ===================================================================== *)
(** ** Facts about the string primitives *)
(* ===================================================================== *)

Module PyFacts.
Import Py Text.

Ltac by_cases_on_char c :=
  destruct c as [[] [] [] [] [] [] [] []]; vm_compute; intros; congruence.

Lemma digit_not_space c : is_digit c = true → is_space c = false.
Proof. by_cases_on_char c. Qed.

Lemma digit_not_plus c : is_digit c = true → Ascii.eqb c "+" = false.
Proof. by_cases_on_char c. Qed.

Lemma digit_not_minus c : is_digit c = true → Ascii.eqb c "-" = false.
Proof. by_cases_on_char c. Qed.

Lemma lstrip_no_leading_space c s :
  is_space c = false → lstrip (String c s) = String c s.
Proof. intros H. simpl. by rewrite H. Qed.

Lemma rstrip_digits s : all_chars is_digit s = true → rstrip s = s.
Proof.
  induction s as [|c s IH]; simpl; [done|].
  intros [Hc Hs]%andb_true_iff. rewrite (IH Hs).
  destruct s; [|done]. by rewrite (digit_not_space _ Hc).
Qed.

Lemma strip_digits s : all_chars is_digit s = true → strip s = s.
Proof.
  intros H. unfold strip. destruct s as [|c s]; [done|].
  pose proof H as [Hc _]%andb_true_iff.
  rewrite lstrip_no_leading_space by by apply digit_not_space.
  by apply rstrip_digits.
Qed.

Lemma int_digits_decimal s acc :
  all_chars is_digit s = true → int_digits acc s = Some (decimal_from acc s).
Proof.
  revert acc. induction s as [|c s IH]; intros acc; simpl; [done|].
  intros [Hc Hs]%andb_true_iff. rewrite Hc. by apply IH.
Qed.

(** [int] never raises on a non-empty string of digits, and reads its
    decimal value. *)
Lemma int_decimal s :
  all_chars is_digit s = true → s ≠ EmptyString → int s = Some (decimal s).
Proof.
  intros H Hne. unfold int. rewrite (strip_digits _ H).
  destruct s as [|c s]; [done|].
  pose proof H as [Hc Hs]%andb_true_iff.
  rewrite (digit_not_plus _ Hc), (digit_not_minus _ Hc).
  simpl. rewrite Hc. unfold decimal. simpl.
  by rewrite int_digits_decimal.
Qed.

End PyFacts.

(* ===================================================================== *)
(** ** Facts about the matcher *)
(* ===================================================================== *)

Module ReFacts.
Import Re Text PyFacts.

Lemma greedy_none {R} cl s (k : string → string → option R) :
  greedy cl 0 (Some 0%nat) s k = k EmptyString s.
Proof. destruct s; simpl; [done|]. by rewrite andb_false_r. Qed.

(** An item repeated exactly once. *)
Lemma greedy_once {R} cl s (k : string → string → option R) :
  greedy cl 1 (Some 1%nat) s k =
  match s with
  | String c s' => if cl c then k (String c EmptyString) s' else None
  | EmptyString => None
  end.
Proof.
  destruct s as [|c s]; simpl; [done|].
  rewrite andb_true_r. destruct (cl c); [|done].
  rewrite greedy_none. by destruct (k _ _).
Qed.

(** An item repeated exactly twice. *)
Lemma greedy_twice {R} cl s (k : string → string → option R) :
  greedy cl 2 (Some 2%nat) s k =
  match s with
  | String a (String b s') =>
      if cl a && cl b then k (String a (String b EmptyString)) s' else None
  | _ => None
  end.
Proof.
  destruct s as [|a s]; [done|].
  change (greedy cl 2 (Some 2%nat) (String a s) k)
    with (if cl a && true
          then match greedy cl 1 (Some 1%nat) s (λ m r, k (String a m) r) with
               | Some x => Some x
               | None => None
               end
          else None).
  rewrite andb_true_r, greedy_once.
  destruct (cl a); simpl; [|by destruct s].
  destruct s as [|b s]; [done|]. destruct (cl b); [|done].
  by destruct (k _ _).
Qed.

(** Whatever [greedy] returns comes from its continuation, called on a
    split of the input whose first part is within the item's bounds and
    class. *)
Lemma greedy_inv {R} cl s : ∀ lo hi (k : string → string → option R) x,
  greedy cl lo hi s k = Some x →
  ∃ m r, s = m +:+ r ∧ all_chars cl m = true ∧
         (lo ≤ String.length m)%nat ∧
         (∀ h, hi = Some h → (String.length m ≤ h)%nat) ∧
         k m r = Some x.
Proof.
  induction s as [|c s IH]; intros lo hi k x; simpl.
  - destruct lo; [|done]. intros Hk.
    exists EmptyString, EmptyString. repeat split; simpl; auto with lia.
  - assert (Hstop : match lo with O => k EmptyString (String c s) | S _ => None end
                    = Some x →
            ∃ m r, String c s = m +:+ r ∧ all_chars cl m = true ∧
                   (lo ≤ String.length m)%nat ∧
                   (∀ h, hi = Some h → (String.length m ≤ h)%nat) ∧
                   k m r = Some x).
    { destruct lo; [|done]. intros Hk.
      exists EmptyString, (String c s). repeat split; simpl; auto with lia. }
    destruct (cl c && may_take hi) eqn:Hc; [|done].
    apply andb_true_iff in Hc as [Hc Hhi].
    destruct (greedy cl (Nat.pred lo) (Nat.pred <$> hi) s
                (λ m r, k (String c m) r)) as [y|] eqn:Hg; [|done].
    intros [= ->]. apply IH in Hg as (m & r & -> & Hm & Hlo & Hhi' & Hk).
    exists (String c m), r. repeat split; simpl; auto.
    + by rewrite Hc.
    + lia.
    + intros h ->. destruct h as [|h]; [done|].
      specialize (Hhi' h eq_refl). lia.
Qed.

(** When the whole input is in the class and the rest of the pattern
    accepts the empty remainder, an unbounded item takes everything. *)
Lemma greedy_all {R} cl s : ∀ (k : string → string → option R),
  all_chars cl s = true → is_Some (k s EmptyString) →
  greedy cl 0 None s k = k s EmptyString.
Proof.
  induction s as [|c s IH]; intros k; simpl; [done|].
  intros [Hc Hs]%andb_true_iff Hk. rewrite Hc. simpl.
  rewrite (IH (λ m r, k (String c m) r)) by done.
  by destruct Hk as [x ->].
Qed.

End ReFacts.

(* ===================================================================== *)
(** ** The synced classifier *)
(* ===================================================================== *)

Lemma synced_pattern_match s :
  is_Some (Re.re_match synced_pattern s) ↔ starts_with_tag_opening s.
Proof.
  unfold synced_pattern, Re.lit, Re.digits. cbn [Re.re_match Re.cls Re.lo Re.hi Re.captured].
  rewrite ReFacts.greedy_once.
  destruct s as [|c0 s].
  { split; [by intros [? ?]|]. by intros (?&?&?&?&?&?&?). }
  destruct (Ascii.eqb_spec "[" c0) as [<-|Hc0]; cycle 1.
  { split; [by intros [? ?]|]. intros (?&?&?&?&?&?&?). congruence. }
  rewrite ReFacts.greedy_twice.
  destruct s as [|d1 [|d2 s]];
    try (split; [by intros [? ?]|]; by intros (?&?&?&?&?&?&?)).
  destruct (Py.is_digit d1 && Py.is_digit d2) eqn:H12; cycle 1.
  { split; [by intros [? ?]|]. intros (?&?&?&?&?&[= -> -> ->]&?&?&?&?).
    apply andb_false_iff in H12 as [?|?]; congruence. }
  apply andb_true_iff in H12 as [H1 H2].
  rewrite ReFacts.greedy_once.
  destruct s as [|c3 s].
  { split; [by intros [? ?]|]. by intros (?&?&?&?&?&?&?). }
  destruct (Ascii.eqb_spec ":" c3) as [<-|Hc3]; cycle 1.
  { split; [by intros [? ?]|]. intros (?&?&?&?&?&?&?). congruence. }
  rewrite ReFacts.greedy_twice.
  destruct s as [|d3 [|d4 s]];
    try (split; [by intros [? ?]|]; by intros (?&?&?&?&?&?&?)).
  destruct (Py.is_digit d3 && Py.is_digit d4) eqn:H34; cycle 1.
  { split; [by intros [? ?]|]. intros (?&?&?&?&?&[= -> -> -> ->]&?&?&?&?).
    apply andb_false_iff in H34 as [?|?]; congruence. }
  apply andb_true_iff in H34 as [H3 H4].
  split; [|by eexists]. intros _.
  by exists d1, d2, d3, d4, s.
Qed.

Lemma re_search_somewhere p s :
  is_Some (Re.re_search p s) ↔
  ∃ pre rest, s = pre +:+ rest ∧ is_Some (Re.re_match p rest).
Proof.
  induction s as [|c s IH].
  - simpl. destruct (Re.re_match p EmptyString) eqn:Hm.
    + split; [|by eexists]. intros _. exists EmptyString, EmptyString.
      by rewrite Hm.
    + split; [by intros [? ?]|]. intros (pre & rest & Heq & Hr).
      destruct pre; [|done]. simpl in Heq. subst rest.
      rewrite Hm in Hr. by destruct Hr.
  - cbn [Re.re_search]. destruct (Re.re_match p (String c s)) eqn:Hm.
    + split; [|by eexists]. intros _. exists EmptyString, (String c s).
      by rewrite Hm.
    + rewrite IH. split.
      * intros (pre & rest & -> & Hr). by exists (String c pre), rest.
      * intros (pre & rest & Heq & Hr). destruct pre as [|c' pre].
        -- simpl in Heq. subst rest. rewrite Hm in Hr. by destruct Hr.
        -- injection Heq as -> ->. by exists pre, rest.
Qed.

(** C6. [_is_synced s] is true exactly when [s] contains somewhere an
    opening bracket followed by two digits, a colon and two digits; the
    text "[00:01.00]Hello" is classified as synced and "Just plain text"
    is not. *)
Theorem is_synced_iff_contains_tag_opening :
  (∀ s : string, _is_synced s = true ↔ contains_tag_opening s)
  ∧ _is_synced "[00:01.00]Hello" = true
  ∧ _is_synced "Just plain text" = false.
Proof.
  split; [|by vm_compute].
  intros s. unfold _is_synced, contains_tag_opening.
  rewrite bool_decide_eq_true, re_search_somewhere.
  by setoid_rewrite synced_pattern_match.
Qed.

(** Witness for C6: text with a tag opening in its middle. *)
Lemma is_synced_iff_contains_tag_opening_witness :
  _is_synced "intro [03:15 chorus" = true.
Proof.
  apply (proj1 is_synced_iff_contains_tag_opening "intro [03:15 chorus").
  exists "intro ", "[03:15 chorus". split; [reflexivity|].
  exists "0"%char, "3"%char, "1"%char, "5"%char, " chorus".
  repeat split.
Defined.

(* ===================================================================== *)
(** ** The LRC parser: one line *)
(* ===================================================================== *)

Module ParserFacts.
Import Text PyFacts.

Lemma digit_not_separator c : Py.is_digit c = true → Re.dot_or_colon c = false.
Proof. by_cases_on_char c. Qed.

(** The pattern accepts a well-formed tagged line and captures minutes,
    seconds, fraction and the remainder. *)
Lemma lrc_pattern_match (m1 m2 s1 s2 sep f1 f2 : ascii) (f3 rest : string) :
  Py.is_digit m1 = true → Py.is_digit m2 = true →
  Py.is_digit s1 = true → Py.is_digit s2 = true →
  Re.dot_or_colon sep = true →
  Py.is_digit f1 = true → Py.is_digit f2 = true →
  all_chars Py.is_digit f3 = true → (String.length f3 ≤ 1)%nat →
  all_chars Re.dot rest = true →
  Re.re_match lrc_pattern
    (String "[" (String m1 (String m2 (String ":" (String s1 (String s2
      (String sep (String f1 (String f2 (f3 +:+ String "]" rest))))))))))
  = Some [ String m1 (String m2 EmptyString); String s1 (String s2 EmptyString);
           String f1 (String f2 f3); rest ].
Proof.
  intros Dm1 Dm2 Ds1 Ds2 Hsep Df1 Df2 Df3 Hf3 Hrest.
  unfold lrc_pattern, Re.lit, Re.digits.
  cbn [Re.re_match Re.cls Re.lo Re.hi Re.captured].
  rewrite ReFacts.greedy_once, Ascii.eqb_refl.
  rewrite ReFacts.greedy_twice, Dm1, Dm2. cbn [andb].
  rewrite ReFacts.greedy_once, Ascii.eqb_refl.
  rewrite ReFacts.greedy_twice, Ds1, Ds2. cbn [andb].
  cbn [Re.greedy Re.may_take Nat.pred].
  rewrite Hsep, (digit_not_separator _ Df1).
  cbn [andb fmap option_fmap option_map]. rewrite Df1, Df2.
  cbn [andb Re.may_take Nat.pred].
  destruct f3 as [|f3 [|? ?]]; [| |simpl in Hf3; lia].
  - cbn [String.append Re.greedy].
    replace (Py.is_digit "]") with false by reflexivity.
    rewrite (Ascii.eqb_refl "]").
    cbn [andb Re.may_take Nat.pred fmap option_fmap option_map].
    rewrite ReFacts.greedy_none.
    by rewrite ReFacts.greedy_all.
  - simpl in Df3. apply andb_true_iff in Df3 as [Df3 _].
    cbn [String.append Re.greedy]. rewrite Df3.
    cbn [andb Re.may_take Nat.pred fmap option_fmap option_map].
    rewrite ReFacts.greedy_none, (Ascii.eqb_refl "]").
    cbn [andb Re.may_take Nat.pred fmap option_fmap option_map].
    rewrite ReFacts.greedy_none.
    by rewrite ReFacts.greedy_all.
Qed.

(** One item of the pattern peeled off a successful match. *)
Ltac peel :=
  match goal with
  | H : match ?g with Some _ => _ | None => None end = Some _ |- _ =>
      let E := fresh "E" in
      let m := fresh "m" in
      let r := fresh "r" in
      let Hs := fresh "Hs" in
      let Hc := fresh "Hc" in
      let Hl := fresh "Hl" in
      let Hh := fresh "Hh" in
      destruct g eqn:E; [|discriminate H];
      injection H as <-;
      apply ReFacts.greedy_inv in E as (m & r & Hs & Hc & Hl & Hh & E)
  end.

(** Whatever the input, a successful match has four groups: two digits,
    two digits, two or three digits, and the remainder. *)
Lemma lrc_pattern_groups s gs :
  Re.re_match lrc_pattern s = Some gs →
  ∃ mins secs ms text,
    gs = [mins; secs; ms; text]
    ∧ all_chars Py.is_digit mins = true ∧ String.length mins = 2%nat
    ∧ all_chars Py.is_digit secs = true ∧ String.length secs = 2%nat
    ∧ all_chars Py.is_digit ms = true
    ∧ (2 ≤ String.length ms ≤ 3)%nat.
Proof.
  unfold lrc_pattern, Re.lit, Re.digits.
  cbn [Re.re_match Re.cls Re.lo Re.hi Re.captured].
  intros H.
  apply ReFacts.greedy_inv in H as (m0 & r0 & _ & _ & _ & _ & H).
  do 7 peel.
  match goal with E : Some _ = Some _ |- _ => injection E as <- end.
  match goal with
  | |- ∃ _ _ _ _, [?a; ?b; ?c; ?d] = _ ∧ _ => exists a, b, c, d
  end.
  repeat match goal with
         | Hh : ∀ h, Some _ = Some h → _ |- _ => specialize (Hh _ eq_refl)
         end.
  repeat split; auto; lia.
Qed.

Lemma two_digits s :
  all_chars Py.is_digit s = true → String.length s = 2%nat →
  Py.int s = Some (decimal s).
Proof. intros H Hl. apply int_decimal; [done|]. by destruct s. Qed.

(** The fraction after [ms.ljust(3, '0')[:3]]: three digits. *)
Lemma normalized_fraction ms :
  all_chars Py.is_digit ms = true → (2 ≤ String.length ms ≤ 3)%nat →
  let ms' := Py.slice_to 3 (Py.ljust 3 "0" ms) in
  all_chars Py.is_digit ms' = true ∧ String.length ms' = 3%nat
  ∧ decimal ms' = if Nat.eqb (String.length ms) 2 then decimal ms * 10 else decimal ms.
Proof.
  intros H Hl.
  destruct ms as [|a [|b [|c [|? ?]]]]; simpl in Hl; try lia.
  - simpl in *. rewrite H. repeat split; auto.
    unfold decimal. simpl. change (Py.digit_value "0") with 0. lia.
  - simpl in *. by rewrite H.
Qed.

(** The loop body never raises, and appends at most one line. *)
Lemma parse_line_total line :
  ∃ new, parse_line line = Some new ∧ (length new ≤ 1)%nat.
Proof.
  unfold parse_line.
  assert (Hskip : ∃ new : list LyricLine, Some [] = Some new ∧ (length new ≤ 1)%nat).
  { exists []. split; [done|]. simpl. lia. }
  destruct (negb (Py.truthy (Py.strip line))); [done|].
  destruct (Re.re_match lrc_pattern (Py.strip line)) as [gs|] eqn:Hm; [|done].
  apply lrc_pattern_groups in Hm
    as (mins & secs & ms & txt & -> & Dm & Lm & Ds & Ls & Df & Lf).
  destruct (normalized_fraction ms Df Lf) as (Df' & Lf' & _).
  rewrite (two_digits mins), (two_digits secs) by done.
  rewrite (int_decimal (Py.slice_to 3 (Py.ljust 3 "0" ms))); [|done|].
  - simpl. eexists. split; [done|]. simpl. lia.
  - intros Heq. by rewrite Heq in Lf'.
Qed.

End ParserFacts.

(* ===================================================================== *)
(** ** The loop body on a tagged line *)
(* ===================================================================== *)

Module TaggedLineFacts.

(** What the loop body appends for a line that, once stripped, is a tag
    "[MM:SS<sep>FF]" or "[MM:SS<sep>FFF]" followed by any text. *)
Lemma tagged_line_parsed (mm ss frac rest line : string) (sep : ascii) :
  String.length mm = 2%nat → Text.all_chars Py.is_digit mm = true →
  String.length ss = 2%nat → Text.all_chars Py.is_digit ss = true →
  (sep = "." ∨ sep = ":")%char →
  (String.length frac = 2 ∨ String.length frac = 3)%nat →
  Text.all_chars Py.is_digit frac = true →
  Text.all_chars Re.dot rest = true →
  Py.strip line = "[" +:+ mm +:+ ":" +:+ ss +:+ String sep (frac +:+ "]" +:+ rest) →
  parse_line line =
    Some [ {| timestamp := "[" +:+ mm +:+ ":" +:+ ss +:+ "." +:+ Py.slice_to 2 frac +:+ "]";
              text := Py.strip rest;
              milliseconds :=
                Text.decimal mm * 60000 + Text.decimal ss * 1000
                + Text.decimal (Py.slice_to 3 (Py.ljust 3 "0" frac)) |} ]
  ∧ Text.decimal (Py.slice_to 3 (Py.ljust 3 "0" frac))
    = (if Nat.eqb (String.length frac) 2
       then Text.decimal frac * 10 else Text.decimal frac).
Proof.
  intros Lm Dm Ls Ds Hsep Lf Df Hrest Hline.
  assert (Lf' : (2 ≤ String.length frac ≤ 3)%nat) by lia.
  destruct (ParserFacts.normalized_fraction frac Df Lf') as (Df' & Lf'' & Hf).
  split; [|done].
  unfold parse_line. rewrite Hline.
  destruct mm as [|m1 [|m2 [|? ?]]]; try discriminate.
  destruct ss as [|s1 [|s2 [|? ?]]]; try discriminate.
  destruct frac as [|f1 [|f2 f3]]; [simpl in Lf; lia..|].
  pose proof Dm as [Dm1 [Dm2 _]%andb_true_iff]%andb_true_iff.
  pose proof Ds as [Ds1 [Ds2 _]%andb_true_iff]%andb_true_iff.
  pose proof Df as [Df1 [Df2 Df3]%andb_true_iff]%andb_true_iff.
  cbn [String.append Py.truthy negb].
  rewrite ParserFacts.lrc_pattern_match; try done; cycle 1.
  { by destruct Hsep as [-> | ->]. }
  { simpl in Lf. lia. }
  rewrite (ParserFacts.two_digits (String m1 _)) by done.
  rewrite (ParserFacts.two_digits (String s1 _)) by done.
  rewrite PyFacts.int_decimal; [done|done|].
  intros Heq. by rewrite Heq in Lf''.
Qed.

End TaggedLineFacts.

(* ===================================================================== *)
(** ** Facts about [sorted] *)
(* ===================================================================== *)

Module SortedFacts.
Import Order.
Section WithKey.
Context {A : Type} (key : A → Z).

Lemma le_key_trans : Transitive (le_key key).
Proof. unfold le_key. intros a b c. lia. Qed.

Lemma nondecreasing_strongly l :
  nondecreasing key l ↔ StronglySorted (le_key key) l.
Proof.
  split.
  - apply Sorted_StronglySorted, le_key_trans.
  - apply StronglySorted_Sorted.
Qed.

Lemma insert_by_perm x l : Py.insert_by key x l ≡ₚ x :: l.
Proof.
  induction l as [|y l IH]; simpl; [done|].
  destruct (key x <=? key y); [done|].
  rewrite IH. apply perm_swap.
Qed.

Lemma sorted_perm l : Py.sorted key l ≡ₚ l.
Proof.
  induction l as [|x l IH]; simpl; [done|].
  by rewrite insert_by_perm, IH.
Qed.

Lemma insert_by_strongly x l :
  StronglySorted (le_key key) l → StronglySorted (le_key key) (Py.insert_by key x l).
Proof.
  induction 1 as [|y l Hl IH Hy]; simpl.
  - repeat constructor.
  - destruct (Z.leb_spec (key x) (key y)) as [Hle|Hgt].
    + constructor; [by constructor|]. constructor; [done|].
      eapply Forall_impl; [exact Hy|]. unfold le_key. simpl. intros z. lia.
    + constructor; [done|].
      rewrite insert_by_perm. constructor; [|done]. unfold le_key. lia.
Qed.

Lemma sorted_strongly l : StronglySorted (le_key key) (Py.sorted key l).
Proof.
  induction l as [|x l IH]; simpl; [constructor|].
  by apply insert_by_strongly.
Qed.

Lemma sorted_nondecreasing l : nondecreasing key (Py.sorted key l).
Proof. apply nondecreasing_strongly, sorted_strongly. Qed.




End WithKey.
End SortedFacts.

(* ===================================================================== *)
(** ** The LRC parser: whole texts *)
(* ===================================================================== *)

Module ParseLrcFacts.
Import Text PyFacts.

Lemma parse_loop_collects pieces : ∀ acc,
  parse_loop pieces acc = Some (acc ++ lines_in_order pieces).
Proof.
  induction pieces as [|p pieces IH]; intros acc.
  - simpl. by rewrite app_nil_r.
  - destruct (ParserFacts.parse_line_total p) as (new & Hnew & _).
    cbn [parse_loop]. rewrite Hnew. cbn [mbind option_bind].
    rewrite IH. unfold lines_in_order. rewrite bind_cons, Hnew.
    cbn [default]. by rewrite <- app_assoc.
Qed.

Lemma parse_lrc_collects lrc :
  _parse_lrc lrc
  = Some (Py.sorted milliseconds (lines_in_order (Py.split_newline lrc))).
Proof. unfold _parse_lrc. by rewrite parse_loop_collects. Qed.


Lemma split_no_newline p :
  all_chars Re.dot p = true → Py.split_newline p = [p].
Proof.
  induction p as [|c p IH]; simpl; [done|].
  intros [Hc Hp]%andb_true_iff. unfold Re.dot in Hc.
  apply negb_true_iff in Hc. rewrite Hc. by rewrite IH.
Qed.

Lemma split_first_piece p s :
  all_chars Re.dot p = true →
  Py.split_newline (p +:+ String Py.newline s) = p :: Py.split_newline s.
Proof.
  induction p as [|c p IH]; simpl.
  - done.
  - intros [Hc Hp]%andb_true_iff. unfold Re.dot in Hc.
    apply negb_true_iff in Hc. rewrite Hc. by rewrite IH.
Qed.

(** Splitting the join of newline-free pieces gives the pieces back. *)
Lemma split_join pieces :
  Forall (λ p, all_chars Re.dot p = true) pieces → pieces ≠ [] →
  Py.split_newline (Py.join_newline pieces) = pieces.
Proof.
  induction 1 as [|p pieces Hp Hps IH]; [done|]. intros _.
  destruct pieces as [|q pieces].
  - simpl. by apply split_no_newline.
  - change (Py.join_newline (p :: q :: pieces))
      with (p +:+ String Py.newline (Py.join_newline (q :: pieces))).
    rewrite split_first_piece by done. by rewrite IH.
Qed.


End ParseLrcFacts.

(* ===================================================================== *)
(** ** Lines of the text in the parser's output *)
(* ===================================================================== *)

Module CollectFacts.

(** What the loop body appends for a piece of the text is collected. *)
Lemma line_collected pieces line l :
  line ∈ pieces → parse_line line = Some [l] → l ∈ lines_in_order pieces.
Proof.
  intros Hin Hp. unfold lines_in_order. apply list_elem_of_bind.
  exists line. split; [|done]. rewrite Hp. apply list_elem_of_here.
Qed.

(** What the parser returns for a text of one piece. *)
Lemma parse_lrc_one_piece lrc line new :
  Py.split_newline lrc = [line] → parse_line line = Some new →
  (length new ≤ 1)%nat → _parse_lrc lrc = Some new.
Proof.
  intros Hone Hp Hlen. rewrite ParseLrcFacts.parse_lrc_collects, Hone.
  unfold lines_in_order. cbn [mbind list_bind]. rewrite Hp. cbn [default].
  rewrite app_nil_r. by destruct new as [|x [|? ?]]; simpl in Hlen; try lia.
Qed.

(** The loop collects at most one line per piece. *)
Lemma lines_in_order_length pieces :
  (length (lines_in_order pieces) ≤ length pieces)%nat.
Proof.
  induction pieces as [|p pieces IH]; [done|].
  unfold lines_in_order in *. rewrite bind_cons, length_app.
  destruct (ParserFacts.parse_line_total p) as (new & -> & Hlen).
  simpl in *. lia.
Qed.

End CollectFacts.

(** C5. [_parse_lrc] on a text one of whose lines, once stripped, is a tag
    "[MM:SS<sep>FF]" or "[MM:SS<sep>FFF]" (two-digit minutes and seconds,
    separator "." or ":", a fraction of two or three digits) followed by
    any text: the parser returns a list that contains the line whose
    [milliseconds] is minutes * 60000 + seconds * 1000 + f, where f is the
    value of the fraction padded on the right with zeros to three digits
    and cut to three digits (so ten times a two-digit fraction), and whose
    [timestamp] is "[MM:SS.FF]" with the first two digits of the fraction;
    when the text is that one line, the parser returns exactly this
    line. *)
Theorem parse_lrc_tagged_line (lrc mm ss frac rest line : string) (sep : ascii) :
  line ∈ Py.split_newline lrc →
  String.length mm = 2%nat → Text.all_chars Py.is_digit mm = true →
  String.length ss = 2%nat → Text.all_chars Py.is_digit ss = true →
  (sep = "." ∨ sep = ":")%char →
  (String.length frac = 2 ∨ String.length frac = 3)%nat →
  Text.all_chars Py.is_digit frac = true →
  Text.all_chars Re.dot rest = true →
  Py.strip line = "[" +:+ mm +:+ ":" +:+ ss +:+ String sep (frac +:+ "]" +:+ rest) →
  let f := Text.decimal (Py.slice_to 3 (Py.ljust 3 "0" frac)) in
  let l := {| timestamp := "[" +:+ mm +:+ ":" +:+ ss +:+ "." +:+ Py.slice_to 2 frac +:+ "]";
              text := Py.strip rest;
              milliseconds :=
                Text.decimal mm * 60000 + Text.decimal ss * 1000 + f |} in
  (∃ out, _parse_lrc lrc = Some out ∧ l ∈ out)
  ∧ (Py.split_newline lrc = [line] → _parse_lrc lrc = Some [l])
  ∧ f = (if Nat.eqb (String.length frac) 2
         then Text.decimal frac * 10 else Text.decimal frac).
Proof.
  intros Hin Lm Dm Ls Ds Hsep Lf Df Hrest Hline f l.
  destruct (TaggedLineFacts.tagged_line_parsed mm ss frac rest line sep
              Lm Dm Ls Ds Hsep Lf Df Hrest Hline) as [Hp Hf].
  split; [|split; [|done]].
  - rewrite ParseLrcFacts.parse_lrc_collects. eexists. split; [done|].
    rewrite SortedFacts.sorted_perm. by apply (CollectFacts.line_collected _ line).
  - intros Hone. apply (CollectFacts.parse_lrc_one_piece _ line); [done|done|].
    simpl. lia.
Qed.

(** Witness for C5: the line "  [01:23:456] la la  " after another line. *)
Lemma parse_lrc_tagged_line_witness :
  ∃ out,
    _parse_lrc (Py.join_newline ["[02:00.00]later"; "  [01:23:456] la la  "])
    = Some out
    ∧ {| timestamp := "[01:23.45]"; text := "la la"; milliseconds := 83456 |} ∈ out.
Proof.
  refine (proj1 (parse_lrc_tagged_line
           (Py.join_newline ["[02:00.00]later"; "  [01:23:456] la la  "])
           "01" "23" "456" " la la" "  [01:23:456] la la  " ":"
           _ eq_refl eq_refl eq_refl eq_refl (or_intror eq_refl) (or_intror eq_refl)
           eq_refl eq_refl eq_refl)).
  vm_compute. apply list_elem_of_further, list_elem_of_here.
Defined.

(** The example of the repository's tests: two lines in order, and their
    rendering as plain text. *)
Example parse_two_lines :
  _parse_lrc (Py.join_newline ["[00:01.00]Line 1"; "[00:02.00]Line 2"])
  = Some [ mkLyricLine "[00:01.00]" "Line 1" 1000;
           mkLyricLine "[00:02.00]" "Line 2" 2000 ]
  ∧ to_plain_text
      (mkSyncedLyrics "Test" "Artist" EmptyString
         [ mkLyricLine "[00:01.00]" "Line 1" 1000;
           mkLyricLine "[00:02.00]" "Line 2" 2000 ] EmptyString)
    = Py.join_newline ["Line 1"; "Line 2"].
Proof. by vm_compute. Qed.




(* ===================================================================== *)
(** ** Lookup by playback position *)
(* ===================================================================== *)

Module LookupFacts.

(** Once a line is later than [ms], so is every line after it. *)
Lemma filter_all_later ms line rest :
  StronglySorted le_ms (line :: rest) → ms < milliseconds line →
  filter (λ l, milliseconds l ≤ ms) (line :: rest) = [].
Proof.
  intros [Hs Hall]%StronglySorted_inv Hlt.
  rewrite filter_cons, decide_False by lia.
  induction Hall as [|y rest Hy Hall IH]; [done|].
  apply StronglySorted_inv in Hs as [Hs _].
  unfold le_ms, Order.le_key in Hy.
  rewrite filter_cons, decide_False by lia. by apply IH.
Qed.

Lemma get_line_at_loop_last ls : ∀ ms cur,
  StronglySorted le_ms ls →
  get_line_at_loop ls ms cur
  = from_option Some cur (last (filter (λ l, milliseconds l ≤ ms) ls)).
Proof.
  induction ls as [|line rest IH]; intros ms cur Hs; [done|].
  cbn [get_line_at_loop].
  destruct (Z.leb_spec (milliseconds line) ms) as [Hle|Hgt].
  - rewrite filter_cons, decide_True by done.
    rewrite IH by by apply StronglySorted_inv in Hs as [? _].
    destruct (filter _ rest) as [|y l] eqn:Hf; [done|].
    rewrite last_cons_cons.
    destruct (last (y :: l)) eqn:E; [done|]. by apply last_None in E.
  - by rewrite filter_all_later.
Qed.

End LookupFacts.

(** C4. When the lines of a document are non-decreasing in [milliseconds],
    [get_line_at t] is the last line whose [milliseconds] is at most [t];
    it is [None] when there are no lines or [t] is before the first line.
    For lines at 1000 and 5000, looking up 5000 and 7000 both give the line
    at 5000 and looking up 500 gives [None]. *)
Theorem get_line_at_last_not_exceeding :
  (∀ (doc : SyncedLyrics) (t : Z),
      nondecreasing_ms (lines doc) → 0 ≤ t →
      get_line_at doc t = last (filter (λ l, milliseconds l ≤ t) (lines doc))
      ∧ (lines doc = [] → get_line_at doc t = None)
      ∧ (∀ first rest, lines doc = first :: rest → t < milliseconds first →
                       get_line_at doc t = None))
  ∧ (∀ (tr ar raw src ts1 tx1 ts2 tx2 : string),
      let l1 := mkLyricLine ts1 tx1 1000 in
      let l2 := mkLyricLine ts2 tx2 5000 in
      let doc := mkSyncedLyrics tr ar raw [l1; l2] src in
      get_line_at doc 5000 = Some l2
      ∧ get_line_at doc 7000 = Some l2
      ∧ get_line_at doc 500 = None).
Proof.
  split; [|done].
  intros doc t Hs _.
  apply SortedFacts.nondecreasing_strongly in Hs.
  assert (Hlast : get_line_at doc t
                  = last (filter (λ l, milliseconds l ≤ t) (lines doc))).
  { unfold get_line_at. rewrite LookupFacts.get_line_at_loop_last by done.
    by destruct (last _). }
  split; [done|]. split.
  - intros Hnil. by rewrite Hlast, Hnil.
  - intros first rest Heq Hlt. rewrite Hlast, Heq.
    rewrite LookupFacts.filter_all_later; [done| |done]. by rewrite <- Heq.
Qed.

(** Witness for C4: three lines, two of them at the same offset. *)
Lemma get_line_at_last_not_exceeding_witness :
  let doc := mkSyncedLyrics "Song" "Artist" ""
               [ mkLyricLine "[00:01.00]" "a" 1000;
                 mkLyricLine "[00:03.00]" "b" 3000;
                 mkLyricLine "[00:03.00]" "c" 3000;
                 mkLyricLine "[00:09.00]" "d" 9000 ] "lrclib" in
  get_line_at doc 4000 = Some (mkLyricLine "[00:03.00]" "c" 3000).
Proof.
  intros doc.
  refine (proj1 (proj1 get_line_at_last_not_exceeding doc 4000 _ _)).
  - repeat constructor; simpl; lia.
  - lia.
Defined.

(* ===================================================================== *)
(** ** The aggregating searcher *)
(* ===================================================================== *)

Section SearcherFacts.
Context {World : Type}.
Variable get_lyrics :
  LyricsProvider → string → string → World → outcome * World.

(** Building a document never raises. *)
Lemma build_document trk art raw name :
  build trk art raw name = Some (document trk art raw name).
Proof.
  unfold build, document. destruct (_is_synced raw); [|done].
  by rewrite ParseLrcFacts.parse_lrc_collects.
Qed.

Lemma document_lines trk art raw name :
  if _is_synced raw
  then _parse_lrc raw = Some (lines (document trk art raw name))
  else lines (document trk art raw name) = [].
Proof.
  unfold document. destruct (_is_synced raw); [|done].
  by rewrite ParseLrcFacts.parse_lrc_collects.
Qed.

(** One iteration of [search] on a provider whose result is not
    acceptable: the search get_lyrics goes on with the next provider. *)
Lemma search_skip name p rest trk art synced_only w o w' :
  get_lyrics p trk art w = (o, w') →
  acceptable synced_only o = false →
  search get_lyrics ((name, p) :: rest) trk art synced_only w
  = search get_lyrics rest trk art synced_only w'.
Proof.
  intros Hg Ho. cbn [search]. rewrite Hg.
  destruct o as [[raw|]|]; try done. simpl in Ho.
  destruct (Py.truthy raw); [|done]. simpl in Ho.
  apply orb_false_iff in Ho as [Hs%negb_false_iff Hn]. by rewrite Hs, Hn.
Qed.

(** One iteration of [search] on a provider whose result is
    acceptable: the search get_lyrics ends there. *)
Lemma search_accept name p rest trk art synced_only w raw w' :
  get_lyrics p trk art w = (Returned (Some raw), w') →
  acceptable synced_only (Returned (Some raw)) = true →
  search get_lyrics ((name, p) :: rest) trk art synced_only w
  = (Some (document trk art raw name), w').
Proof.
  intros Hg Ho. cbn [search]. rewrite Hg.
  simpl in Ho. apply andb_true_iff in Ho as [-> Ho].
  rewrite build_document.
  destruct synced_only; [|done]. simpl in Ho. by rewrite Ho.
Qed.

Lemma search_skip_all pre : ∀ rest trk art synced_only w tr w1,
  query_all get_lyrics pre trk art w = (tr, w1) →
  Forall (λ no, acceptable synced_only no.2 = false) tr →
  search get_lyrics (pre ++ rest) trk art synced_only w
  = search get_lyrics rest trk art synced_only w1.
Proof.
  induction pre as [|[name p] pre IH]; intros rest trk art so w tr w1.
  - simpl. by intros [= <- <-] _.
  - cbn [query_all].
    destruct (get_lyrics p trk art w) as [o w'] eqn:Hg.
    destruct (query_all get_lyrics pre trk art w') as [os w''] eqn:Hq.
    intros [= <- <-] [Ho Hos]%Forall_cons.
    rewrite <- app_comm_cons, (search_skip _ _ _ _ _ _ _ _ _ Hg Ho).
    by eapply IH.
Qed.

(** A document returned by [search] comes from a configured provider
    whose text was acceptable. *)
Lemma search_found providers : ∀ trk art synced_only w doc w',
  search get_lyrics providers trk art synced_only w = (Some doc, w') →
  ∃ name raw,
    name ∈ providers.*1 ∧ doc = document trk art raw name
    ∧ acceptable synced_only (Returned (Some raw)) = true.
Proof.
  induction providers as [|[name p] providers IH];
    intros trk art so w doc w'; [done|].
  destruct (get_lyrics p trk art w) as [o w1] eqn:Hg.
  destruct (acceptable so o) eqn:Ho.
  - destruct o as [[raw|]|]; try done.
    rewrite (search_accept _ _ _ _ _ _ _ _ _ Hg Ho). intros [= <- <-].
    exists name, raw. repeat split; [|done]. simpl. left.
  - rewrite (search_skip _ _ _ _ _ _ _ _ _ Hg Ho). intros Hs.
    apply IH in Hs as (n & raw & Hn & -> & Hacc).
    exists n, raw. repeat split; [|done]. simpl. by right.
Qed.

Lemma search_all_loop_collects providers : ∀ trk art results w,
  search_all_loop get_lyrics providers trk art results w
  = (results ++ omap (document_of trk art) (query_all get_lyrics providers trk art w).1,
     (query_all get_lyrics providers trk art w).2).
Proof.
  induction providers as [|[name p] providers IH]; intros trk art results w.
  - simpl. by rewrite app_nil_r.
  - cbn [search_all_loop query_all].
    destruct (get_lyrics p trk art w) as [o w'] eqn:Hg.
    specialize (IH trk art).
    destruct (query_all get_lyrics providers trk art w') as [os w''] eqn:Hq.
    cbn [fst snd].
    assert (Hcons : omap (document_of trk art) ((name, o) :: os)
                    = match document_of trk art (name, o) with
                      | Some doc => doc :: omap (document_of trk art) os
                      | None => omap (document_of trk art) os
                      end) by done.
    rewrite Hcons. clear Hcons. unfold document_of at 1. cbn [fst snd].
    destruct o as [[raw|]|]; try (by rewrite IH, Hq).
    destruct (Py.truthy raw); [|by rewrite IH, Hq].
    rewrite build_document, IH, Hq. cbn [fst snd]. by rewrite <- app_assoc.
Qed.

End SearcherFacts.

(** C1. With the providers before [p] all giving nothing acceptable
    (absent, raising, empty text, or plain text under [synced_only]) and
    [p] giving acceptable text [raw], [search] returns the document built
    from [raw], stamped with the name [p] is registered under and with the
    query's track and artist.  The result and the final world are those
    right after the call of [p], whatever the later providers [post] are:
    none of them is called. *)
Theorem search_first_acceptable_wins {World : Type}
    (get_lyrics : LyricsProvider → string → string → World → outcome * World)
    (pre post : list (string * LyricsProvider)) (name : string)
    (p : LyricsProvider) (trk art : string) (synced_only : bool)
    (w w1 w2 : World) (tr : list (string * outcome)) (raw : string) :
  query_all get_lyrics pre trk art w = (tr, w1) →
  Forall (λ no, acceptable synced_only no.2 = false) tr →
  get_lyrics p trk art w1 = (Returned (Some raw), w2) →
  raw ≠ EmptyString →
  (synced_only = true → _is_synced raw = true) →
  ∃ doc,
    search get_lyrics (pre ++ (name, p) :: post) trk art synced_only w
      = (Some doc, w2)
    ∧ search get_lyrics (pre ++ [(name, p)]) trk art synced_only w
      = (Some doc, w2)
    ∧ source doc = name ∧ track doc = trk ∧ artist doc = art ∧ lrc doc = raw
    ∧ (if _is_synced raw then _parse_lrc raw = Some (lines doc)
       else lines doc = []).
Proof.
  intros Hpre Hun Hp Hne Hsync.
  assert (Hacc : acceptable synced_only (Returned (Some raw)) = true).
  { simpl. destruct raw; [done|]. simpl.
    destruct synced_only; [|done]. simpl. by apply Hsync. }
  exists (document trk art raw name).
  rewrite !(search_skip_all get_lyrics pre _ _ _ _ _ _ _ Hpre Hun).
  rewrite !(search_accept get_lyrics _ _ _ _ _ _ _ _ _ Hp Hacc).
  repeat split. apply document_lines.
Qed.

(** Witness for C1: a raising provider, an absent one and a plain-text one
    precede two synced ones; the first synced one wins and the log shows
    the last provider was never called. *)
Lemma search_first_acceptable_wins_witness :
  ∃ doc,
    search Demo.get_lyrics
      ([Demo.provider 0; Demo.provider 1; Demo.provider 3]
         ++ Demo.provider 4 :: [Demo.provider 5]) "Song" "Artist" true []
      = (Some doc, [0; 1; 3; 4]%nat)
    ∧ search Demo.get_lyrics
        ([Demo.provider 0; Demo.provider 1; Demo.provider 3]
           ++ [Demo.provider 4]) "Song" "Artist" true []
      = (Some doc, [0; 1; 3; 4]%nat)
    ∧ source doc = "netease" ∧ track doc = "Song" ∧ artist doc = "Artist"
    ∧ lrc doc = Demo.two_lines
    ∧ (if _is_synced Demo.two_lines
       then _parse_lrc Demo.two_lines = Some (lines doc)
       else lines doc = []).
Proof.
  refine (search_first_acceptable_wins Demo.get_lyrics
            [Demo.provider 0; Demo.provider 1; Demo.provider 3]
            [Demo.provider 5] "netease" (Demo.provider 4).2 "Song" "Artist" true
            [] [0; 1; 3]%nat [0; 1; 3; 4]%nat
            [("lrclib", Raised); ("netease", Returned None);
             ("lrclib", Returned (Some "la la la"))]
            _ eq_refl _ eq_refl _ _).
  - repeat constructor.
  - discriminate.
  - intros _. vm_compute. reflexivity.
Defined.

(** C2. Under [synced_only], a provider that returns non-empty text the
    classifier does not judge synced is passed over and the search goes on
    with the next provider; and a document [search] returns under
    [synced_only] always has raw text classified as synced. *)
Theorem search_synced_only_discards_plain {World : Type}
    (get_lyrics : LyricsProvider → string → string → World → outcome * World) :
  (∀ name p rest trk art w raw w',
      get_lyrics p trk art w = (Returned (Some raw), w') →
      raw ≠ EmptyString → _is_synced raw = false →
      search get_lyrics ((name, p) :: rest) trk art true w
      = search get_lyrics rest trk art true w')
  ∧ (∀ providers trk art w doc w',
      search get_lyrics providers trk art true w = (Some doc, w') →
      _is_synced (lrc doc) = true).
Proof.
  split.
  - intros name p rest trk art w raw w' Hg Hne Hplain.
    apply (search_skip get_lyrics _ _ _ _ _ _ _ _ _ Hg).
    simpl. rewrite Hplain. by destruct (Py.truthy raw).
  - intros providers trk art w doc w' Hs.
    apply search_found in Hs as (name & raw & _ & -> & Hacc).
    simpl in *. by apply andb_true_iff in Hacc as [_ Hacc].
Qed.

(** Witness for C2: a plain-text provider followed by a synced one. *)
Lemma search_synced_only_discards_plain_witness :
  search Demo.get_lyrics [Demo.provider 3; Demo.provider 4] "Song" "Artist" true []
  = search Demo.get_lyrics [Demo.provider 4] "Song" "Artist" true [3%nat]
  ∧ ∀ doc, (search Demo.get_lyrics [Demo.provider 3; Demo.provider 4]
              "Song" "Artist" true []).1 = Some doc →
           _is_synced (lrc doc) = true.
Proof.
  split.
  - refine (proj1 (search_synced_only_discards_plain Demo.get_lyrics)
              "lrclib" (Demo.provider 3).2 [Demo.provider 4] "Song" "Artist"
              [] "la la la" [3%nat] eq_refl _ eq_refl).
    discriminate.
  - intros doc Hdoc.
    refine (proj2 (search_synced_only_discards_plain Demo.get_lyrics)
              [Demo.provider 3; Demo.provider 4] "Song" "Artist" [] doc
              [3; 4]%nat _).
    vm_compute in Hdoc. injection Hdoc as <-. vm_compute. reflexivity.
Defined.

(** C7. A provider that reports absence or raises is passed over and the
    search goes on with the next provider; when no configured provider
    gives an acceptable result, [search] returns [None] (it has no other
    way to end: every exception of an iteration is caught). *)
Theorem search_survives_failures {World : Type}
    (get_lyrics : LyricsProvider → string → string → World → outcome * World) :
  (∀ name p rest trk art synced_only w o w',
      get_lyrics p trk art w = (o, w') →
      o = Returned None ∨ o = Raised →
      search get_lyrics ((name, p) :: rest) trk art synced_only w
      = search get_lyrics rest trk art synced_only w')
  ∧ (∀ providers trk art synced_only w,
      Forall (λ no, acceptable synced_only no.2 = false)
        (query_all get_lyrics providers trk art w).1 →
      search get_lyrics providers trk art synced_only w
      = (None, (query_all get_lyrics providers trk art w).2)).
Proof.
  split.
  - intros name p rest trk art so w o w' Hg Ho.
    apply (search_skip get_lyrics _ _ _ _ _ _ _ _ _ Hg).
    by destruct Ho as [-> | ->].
  - intros providers trk art so w Hall.
    destruct (query_all get_lyrics providers trk art w) as [tr w'] eqn:Hq.
    pose proof (search_skip_all get_lyrics providers [] trk art so w tr w' Hq Hall)
      as Hs.
    by rewrite app_nil_r in Hs.
Qed.

(** Witness for C7: a raising provider, an absent one, one with empty
    text and one with plain text, searched for synced lyrics. *)
Lemma search_survives_failures_witness :
  search Demo.get_lyrics [Demo.provider 0; Demo.provider 1] "Song" "Artist" true []
  = search Demo.get_lyrics [Demo.provider 1] "Song" "Artist" true [0%nat]
  ∧ search Demo.get_lyrics
      [Demo.provider 0; Demo.provider 1; Demo.provider 2; Demo.provider 3]
      "Song" "Artist" true []
    = (None, [0; 1; 2; 3]%nat).
Proof.
  split.
  - refine (proj1 (search_survives_failures Demo.get_lyrics)
              "lrclib" (Demo.provider 0).2 [Demo.provider 1] "Song" "Artist"
              true [] Raised [0%nat] eq_refl (or_intror eq_refl)).
  - refine (proj2 (search_survives_failures Demo.get_lyrics)
              [Demo.provider 0; Demo.provider 1; Demo.provider 2; Demo.provider 3]
              "Song" "Artist" true [] _).
    repeat constructor.
Defined.

Lemma document_of_sources trk art tr :
  source <$> omap (document_of trk art) tr = (List.filter (λ no, has_text no.2) tr).*1.
Proof.
  induction tr as [|[name o] tr IH]; [done|].
  change (omap (document_of trk art) ((name, o) :: tr))
    with (match document_of trk art (name, o) with
          | Some doc => doc :: omap (document_of trk art) tr
          | None => omap (document_of trk art) tr
          end).
  unfold document_of at 1. simpl.
  destruct o as [[raw|]|]; simpl; try done.
  destruct (Py.truthy raw); simpl; [|done]. f_equal. exact IH.
Qed.

Lemma document_of_invariant trk art tr :
  Forall (λ doc, track doc = trk ∧ artist doc = art
                 ∧ lrc doc ≠ EmptyString
                 ∧ (if _is_synced (lrc doc)
                    then _parse_lrc (lrc doc) = Some (lines doc)
                    else lines doc = []))
    (omap (document_of trk art) tr).
Proof.
  apply Forall_forall. intros doc Hdoc.
  apply list_elem_of_omap in Hdoc as ([name o] & _ & Hdoc).
  unfold document_of in Hdoc. simpl in Hdoc.
  destruct o as [[raw|]|]; try done.
  destruct (Py.truthy raw) eqn:Hraw; [|done]. injection Hdoc as <-.
  simpl. repeat split; [by destruct raw|].
  apply (document_lines trk art raw name).
Qed.

(** C8. [search_all] calls every configured provider and returns, in
    configured order, one document for each provider that returned
    non-empty text, with no synced-only gate: the documents' sources are
    the names of exactly those providers, in order; a document whose raw
    text is not classified as synced has no lines, and one whose raw text
    is synced has the parsed lines. *)
Theorem search_all_one_document_per_text {World : Type}
    (get_lyrics : LyricsProvider → string → string → World → outcome * World)
    (providers : list (string * LyricsProvider)) (trk art : string) (w : World) :
  let tr := (query_all get_lyrics providers trk art w).1 in
  let docs := (search_all get_lyrics providers trk art w).1 in
  docs = omap (document_of trk art) tr
  ∧ (search_all get_lyrics providers trk art w).2
    = (query_all get_lyrics providers trk art w).2
  ∧ tr.*1 = providers.*1
  ∧ source <$> docs = (List.filter (λ no, has_text no.2) tr).*1
  ∧ length docs = length (List.filter (λ no, has_text no.2) tr)
  ∧ Forall (λ doc, track doc = trk ∧ artist doc = art
                   ∧ lrc doc ≠ EmptyString
                   ∧ (if _is_synced (lrc doc)
                      then _parse_lrc (lrc doc) = Some (lines doc)
                      else lines doc = [])) docs.
Proof.
  intros tr docs. subst tr docs. unfold search_all.
  rewrite search_all_loop_collects. cbn [fst snd app].
  split; [done|]. split; [done|]. split.
  { clear. revert w. induction providers as [|[name p] ps IH]; intros w; [done|].
    cbn [query_all]. destruct (get_lyrics p trk art w) as [o w'].
    specialize (IH w'). destruct (query_all get_lyrics ps trk art w').
    cbn [fst] in *. rewrite !fmap_cons. by rewrite IH. }
  split; [apply document_of_sources|]. split.
  - rewrite <- (length_fmap source), document_of_sources. by rewrite length_fmap.
  - apply document_of_invariant.
Qed.

(** C10. A provider returning the empty string is handled like one
    returning [None]: both [search] and [search_all] pass it over and go on
    with the next provider, to the same end.  Hence every document either
    operation returns has non-empty raw text. *)
Theorem empty_text_is_absence {World : Type}
    (get_lyrics : LyricsProvider → string → string → World → outcome * World) :
  (∀ name p rest trk art synced_only w o w',
      get_lyrics p trk art w = (o, w') →
      o = Returned (Some EmptyString) ∨ o = Returned None →
      search get_lyrics ((name, p) :: rest) trk art synced_only w
      = search get_lyrics rest trk art synced_only w'
      ∧ ∀ results,
          search_all_loop get_lyrics ((name, p) :: rest) trk art results w
          = search_all_loop get_lyrics rest trk art results w')
  ∧ (∀ providers trk art synced_only w doc w',
      search get_lyrics providers trk art synced_only w = (Some doc, w') →
      lrc doc ≠ EmptyString)
  ∧ (∀ providers trk art w,
      Forall (λ doc, lrc doc ≠ EmptyString)
        (search_all get_lyrics providers trk art w).1).
Proof.
  split; [|split].
  - intros name p rest trk art so w o w' Hg Ho. split.
    + apply (search_skip get_lyrics _ _ _ _ _ _ _ _ _ Hg).
      by destruct Ho as [-> | ->].
    + intros results. cbn [search_all_loop]. rewrite Hg.
      by destruct Ho as [-> | ->].
  - intros providers trk art so w doc w' Hs.
    apply search_found in Hs as (name & raw & _ & -> & Hacc).
    simpl in *. by destruct raw.
  - intros providers trk art w. unfold search_all.
    rewrite search_all_loop_collects. cbn [fst app].
    eapply Forall_impl; [apply document_of_invariant|].
    by intros doc (_ & _ & Hne & _).
Qed.

(** Witness for C10: a provider with empty text before a synced one. *)
Lemma empty_text_is_absence_witness :
  search Demo.get_lyrics [Demo.provider 2; Demo.provider 4] "Song" "Artist" true []
  = search Demo.get_lyrics [Demo.provider 4] "Song" "Artist" true [2%nat]
  ∧ ∀ results,
      search_all_loop Demo.get_lyrics [Demo.provider 2; Demo.provider 4]
        "Song" "Artist" results []
      = search_all_loop Demo.get_lyrics [Demo.provider 4]
          "Song" "Artist" results [2%nat].
Proof.
  exact (proj1 (empty_text_is_absence Demo.get_lyrics)
           "megalobiz" (Demo.provider 2).2 [Demo.provider 4] "Song" "Artist"
           true [] (Returned (Some EmptyString)) [2%nat] eq_refl
           (or_introl eq_refl)).
Defined.

(* ===================================================================== *)
(** ** Construction of the searcher *)
(* ===================================================================== *)

Module InitFacts.

Lemma recognized_names name :
  recognized name ↔ name ∈ ["lrclib"; "netease"; "megalobiz"].
Proof.
  unfold recognized, PROVIDERS.
  rewrite !lookup_insert_is_Some, lookup_empty, is_Some_alt.
  rewrite !elem_of_cons, elem_of_nil.
  split.
  - intros [<-|[_ [<-|[_ [<-|[_ Hnone]]]]]]; auto.
  - intros Hname.
    destruct (decide ("lrclib" = name)); [by left|]. right. split; [done|].
    destruct (decide ("netease" = name)); [by left|]. right. split; [done|].
    destruct (decide ("megalobiz" = name)); [by left|].
    by destruct Hname as [->|[->|[->|[]]]].
Qed.

Lemma init_loop_acc names : ∀ next_id acc,
  init_loop names next_id acc = acc ++ init_loop names next_id [].
Proof.
  induction names as [|name names IH]; intros next_id acc; simpl.
  - by rewrite app_nil_r.
  - destruct (PROVIDERS !! name) as [cl|]; [|apply IH].
    rewrite (IH _ (acc ++ _)), (IH _ [_]). by rewrite <- app_assoc.
Qed.

Lemma init_loop_cons name names next_id :
  init_loop (name :: names) next_id []
  = match PROVIDERS !! name with
    | Some cl => (name, mkProvider cl next_id) :: init_loop names (S next_id) []
    | None => init_loop names next_id []
    end.
Proof.
  simpl. destruct (PROVIDERS !! name); [|done]. by rewrite init_loop_acc.
Qed.

Lemma init_loop_names names : ∀ next_id,
  (init_loop names next_id []).*1 = filter recognized names.
Proof.
  induction names as [|name names IH]; intros next_id; [done|].
  rewrite init_loop_cons.
  destruct (PROVIDERS !! name) as [cl|] eqn:Hl.
  - rewrite filter_cons, decide_True by (unfold recognized; by rewrite Hl).
    rewrite fmap_cons. by rewrite IH.
  - rewrite filter_cons, decide_False; [apply IH|].
    unfold recognized. rewrite Hl. by intros [? ?].
Qed.

Lemma init_loop_classes names : ∀ next_id,
  Forall (λ np, PROVIDERS !! np.1 = Some (provider_cls np.2))
    (init_loop names next_id []).
Proof.
  induction names as [|name names IH]; intros next_id; [constructor|].
  rewrite init_loop_cons.
  destruct (PROVIDERS !! name) as [cl|] eqn:Hl; [|apply IH].
  constructor; [done|apply IH].
Qed.

(** The objects are allocated one after the other. *)
Lemma init_loop_ids names : ∀ next_id,
  provider_id <$> (init_loop names next_id []).*2
  = seq next_id (length (init_loop names next_id [])).
Proof.
  induction names as [|name names IH]; intros next_id; [done|].
  rewrite init_loop_cons.
  destruct (PROVIDERS !! name) as [cl|]; [|apply IH].
  rewrite !fmap_cons. cbn [snd provider_id length seq]. by rewrite IH.
Qed.

End InitFacts.

(** C9. Constructing the searcher from a list of names never fails and
    gives an active provider list whose names are exactly the recognized
    names of the input ("lrclib", "netease", "megalobiz"), in their input
    order and as often as they occur; each entry holds an object of the
    class registered under its name, and all entries hold different
    objects.  For instance an unknown name between two "lrclib" is dropped
    and the two "lrclib" give two entries with two objects. *)
Theorem init_keeps_recognized_names :
  (∀ (names : list string) (next_id : nat),
      let active := __init__ (Some names) next_id in
      active.*1 = filter recognized names
      ∧ Forall (λ np, PROVIDERS !! np.1 = Some (provider_cls np.2)) active
      ∧ NoDup (provider_id <$> active.*2))
  ∧ (∀ name, recognized name
             ↔ name ∈ ["lrclib"; "netease"; "megalobiz"])
  ∧ __init__ (Some ["lrclib"; "spotify"; "lrclib"]) 0
    = [ ("lrclib", mkProvider LrcLibProvider 0);
        ("lrclib", mkProvider LrcLibProvider 1) ]
  ∧ (__init__ None 0).*1 = ["lrclib"; "netease"; "megalobiz"].
Proof.
  split; [|split; [apply InitFacts.recognized_names|by vm_compute]].
  intros names next_id active. subst active. unfold __init__. cbn [default].
  split; [apply InitFacts.init_loop_names|].
  split; [apply InitFacts.init_loop_classes|].
  rewrite InitFacts.init_loop_ids. apply NoDup_seq.
Qed.

(* ===================================================================== *)
(** ** More facts about strings *)
(* ===================================================================== *)

Module StringFacts.
Import Py Text.

Lemma append_assoc s1 s2 s3 : (s1 +:+ s2) +:+ s3 = s1 +:+ (s2 +:+ s3).
Proof. induction s1; simpl; congruence. Qed.

Lemma append_empty_r s : s +:+ EmptyString = s.
Proof. induction s; simpl; congruence. Qed.

Lemma length_append s1 s2 :
  String.length (s1 +:+ s2) = (String.length s1 + String.length s2)%nat.
Proof. induction s1; simpl; congruence. Qed.

Lemma all_chars_append f s1 s2 :
  all_chars f (s1 +:+ s2) = all_chars f s1 && all_chars f s2.
Proof.
  induction s1 as [|c s1 IH]; simpl; [done|]. by rewrite IH, andb_assoc.
Qed.

Lemma substring_refl s : substring s s.
Proof. exists EmptyString, EmptyString. simpl. by rewrite append_empty_r. Qed.

Lemma substring_trans t u s : substring t u → substring u s → substring t s.
Proof.
  intros (a & b & ->) (a' & b' & ->). exists (a' +:+ a), (b +:+ b').
  by rewrite !append_assoc.
Qed.

Lemma substring_cons c t s : substring t s → substring t (String c s).
Proof. intros (a & b & ->). by exists (String c a), b. Qed.

Lemma lstrip_substring s : substring (lstrip s) s.
Proof.
  induction s as [|c s IH]; simpl; [apply substring_refl|].
  destruct (is_space c); [by apply substring_cons|apply substring_refl].
Qed.

Lemma rstrip_prefix s : ∃ b, s = rstrip s +:+ b.
Proof.
  induction s as [|c s [b IH]]; simpl; [by exists EmptyString|].
  destruct (rstrip s) as [|d r] eqn:Hr.
  - destruct (is_space c).
    + by exists (String c s).
    + exists s. done.
  - exists b. simpl in *. by rewrite <- IH.
Qed.

Lemma rstrip_substring s : substring (rstrip s) s.
Proof. destruct (rstrip_prefix s) as [b Hb]. by exists EmptyString, b. Qed.

Lemma strip_substring s : substring (strip s) s.
Proof.
  eapply substring_trans; [apply rstrip_substring|apply lstrip_substring].
Qed.

(** A substring keeps every property all characters have. *)
Lemma all_chars_substring f t s :
  substring t s → all_chars f s = true → all_chars f t = true.
Proof.
  intros (a & b & ->). rewrite !all_chars_append.
  by intros [_ [? _]%andb_true_iff]%andb_true_iff.
Qed.

Lemma rstrip_idempotent s : rstrip (rstrip s) = rstrip s.
Proof.
  induction s as [|c s IH]; [done|]. cbn [rstrip].
  destruct (rstrip s) as [|d r] eqn:Hr.
  - destruct (is_space c) eqn:Hc; [done|]. simpl. by rewrite Hc.
  - cbn [rstrip]. cbn [rstrip] in IH. by rewrite IH.
Qed.

(** What [lstrip] leaves does not start with white space. *)
Lemma lstrip_head s :
  match lstrip s with
  | String c _ => is_space c = false
  | EmptyString => True
  end.
Proof.
  induction s as [|c s IH]; simpl; [done|].
  destruct (is_space c) eqn:Hc; [done|]. by rewrite Hc.
Qed.

Lemma rstrip_keeps_head c s :
  is_space c = false → ∃ r, rstrip (String c s) = String c r.
Proof.
  intros Hc. cbn [rstrip]. destruct (rstrip s); [|by eexists].
  rewrite Hc. by eexists.
Qed.

Lemma strip_head s :
  match strip s with
  | String c _ => is_space c = false
  | EmptyString => True
  end.
Proof.
  unfold strip. pose proof (lstrip_head s) as H.
  destruct (lstrip s) as [|c t]; [done|].
  destruct (rstrip_keeps_head c t H) as [r ->]. done.
Qed.

(** Stripping twice is stripping once. *)
Lemma strip_idempotent s : strip (strip s) = strip s.
Proof.
  unfold strip at 1. pose proof (strip_head s) as H.
  destruct (strip s) as [|c t] eqn:Hs; [done|].
  rewrite PyFacts.lstrip_no_leading_space by done.
  rewrite <- Hs. unfold strip. apply rstrip_idempotent.
Qed.

End StringFacts.

(* ===================================================================== *)
(** ** The parser's pattern, completely *)
(* ===================================================================== *)

Module PatternFacts.
Import Py Text Re.

Lemma re_match_cons t p s :
  re_match (t :: p) s
  = greedy (cls t) (lo t) (hi t) s
      (λ m r, match re_match p r with
              | Some gs => Some (if captured t then m :: gs else gs)
              | None => None
              end).
Proof. done. Qed.

(** An unbounded item takes a whole run of its class when the run ends at
    a character outside the class (or at the end of the input) and the
    rest of the pattern accepts what follows. *)
Lemma greedy_run {R} cl m : ∀ lo r (k : string → string → option R),
  all_chars cl m = true → (lo ≤ String.length m)%nat →
  match r with String c _ => cl c = false | EmptyString => True end →
  is_Some (k m r) →
  greedy cl lo None (m +:+ r) k = k m r.
Proof.
  induction m as [|c m IH]; intros lo r k Hm Hlo Hr Hk.
  - simpl in Hlo. assert (lo = 0%nat) as -> by lia. simpl.
    destruct r as [|c r]; [done|]. simpl. by rewrite Hr.
  - simpl in Hm. apply andb_true_iff in Hm as [Hc Hm].
    cbn [String.append greedy]. rewrite Hc. cbn [andb may_take].
    change (Nat.pred <$> None) with (@None nat).
    rewrite (IH _ r (λ m0 r0, k (String c m0) r0)); try done.
    + by destruct Hk as [x ->].
    + simpl in Hlo. lia.
Qed.

Lemma split_at_newline s : s = before_newline s +:+ from_newline s.
Proof.
  induction s as [|c s IH]; simpl; [done|].
  destruct (Ascii.eqb c newline); simpl; congruence.
Qed.

Lemma before_newline_dot s : all_chars dot (before_newline s) = true.
Proof.
  induction s as [|c s IH]; simpl; [done|].
  destruct (Ascii.eqb c newline) eqn:Hc; simpl; [done|].
  unfold dot at 1. by rewrite Hc.
Qed.

Lemma from_newline_head s :
  match from_newline s with
  | String c _ => dot c = false
  | EmptyString => True
  end.
Proof.
  induction s as [|c s IH]; simpl; [done|].
  destruct (Ascii.eqb c newline) eqn:Hc; [|done]. unfold dot. by rewrite Hc.
Qed.

Lemma before_newline_all s : all_chars dot s = true → before_newline s = s.
Proof.
  induction s as [|c s IH]; simpl; [done|].
  intros [Hc Hs]%andb_true_iff. unfold dot in Hc.
  apply negb_true_iff in Hc. rewrite Hc. by rewrite IH.
Qed.

(** The last three items of the pattern: fraction, closing bracket,
    remainder of the line. *)
Lemma fraction_and_tail ff tail :
  (2 ≤ String.length ff ≤ 3)%nat → all_chars is_digit ff = true →
  re_match [digits true 2 3; lit "]"; Token true dot 0 None]
    (ff +:+ String "]" tail)
  = Some [ff; before_newline tail].
Proof.
  intros Hl Hd.
  assert (Htail : greedy dot 0 None tail
                    (λ m r, match re_match [] r with
                            | Some gs => Some (m :: gs)
                            | None => None
                            end)
                  = Some [before_newline tail]).
  { rewrite (split_at_newline tail) at 1.
    rewrite greedy_run; try done.
    - apply before_newline_dot.
    - lia.
    - apply from_newline_head. }
  destruct ff as [|f1 [|f2 [|f3 [|? ?]]]]; simpl in Hl; try lia.
  - simpl in Hd. apply andb_true_iff in Hd as [D1 [D2 _]%andb_true_iff].
    unfold digits, lit. cbn [re_match cls lo hi captured String.append greedy].
    rewrite D1, D2. cbn [andb may_take Nat.pred fmap option_fmap option_map].
    replace (is_digit "]") with false by reflexivity.
    rewrite (Ascii.eqb_refl "]").
    cbn [andb may_take Nat.pred fmap option_fmap option_map].
    rewrite ReFacts.greedy_none. cbn [re_match] in Htail. by rewrite Htail.
  - simpl in Hd.
    apply andb_true_iff in Hd as [D1 [D2 [D3 _]%andb_true_iff]%andb_true_iff].
    unfold digits, lit. cbn [re_match cls lo hi captured String.append greedy].
    rewrite D1, D2, D3. cbn [andb may_take Nat.pred fmap option_fmap option_map].
    rewrite ReFacts.greedy_none, (Ascii.eqb_refl "]").
    cbn [andb may_take Nat.pred fmap option_fmap option_map].
    rewrite ReFacts.greedy_none. cbn [re_match] in Htail. by rewrite Htail.
Qed.

(** The pattern accepts every tagged line. *)
Lemma lrc_pattern_accepts s mm ss seps ff tail :
  tagged_line s mm ss seps ff tail →
  re_match lrc_pattern s = Some [mm; ss; ff; before_newline tail].
Proof.
  intros (-> & Lm & Dm & Ls & Ds & Hne & Hseps & Lf & Df).
  destruct mm as [|m1 [|m2 [|? ?]]]; try discriminate.
  destruct ss as [|s1 [|s2 [|? ?]]]; try discriminate.
  simpl in Dm, Ds.
  apply andb_true_iff in Dm as [Dm1 [Dm2 _]%andb_true_iff].
  apply andb_true_iff in Ds as [Ds1 [Ds2 _]%andb_true_iff].
  unfold lrc_pattern. cbn [String.append].
  rewrite re_match_cons. unfold lit at 1. cbn [cls lo hi captured].
  rewrite ReFacts.greedy_once, Ascii.eqb_refl.
  rewrite re_match_cons. unfold digits at 1. cbn [cls lo hi captured].
  rewrite ReFacts.greedy_twice, Dm1, Dm2. cbn [andb].
  rewrite re_match_cons. unfold lit at 1. cbn [cls lo hi captured].
  rewrite ReFacts.greedy_once, Ascii.eqb_refl.
  rewrite re_match_cons. unfold digits at 1. cbn [cls lo hi captured].
  rewrite ReFacts.greedy_twice, Ds1, Ds2. cbn [andb].
  rewrite re_match_cons. cbn [cls lo hi captured].
  pose proof (fraction_and_tail ff tail Lf Df) as Hrest.
  rewrite greedy_run; try done.
  - by rewrite Hrest.
  - destruct seps; [done|]. simpl. lia.
  - destruct ff as [|f1 ff]; [simpl in Lf; lia|]. simpl.
    apply ParserFacts.digit_not_separator.
    simpl in Df. by apply andb_true_iff in Df as [? _].
  - by rewrite Hrest.
Qed.

Lemma single_char c m :
  all_chars (Ascii.eqb c) m = true → (1 ≤ String.length m)%nat →
  (String.length m ≤ 1)%nat → m = String c EmptyString.
Proof.
  destruct m as [|d [|? ?]]; simpl; try lia.
  intros [Hd%Ascii.eqb_eq _]%andb_true_iff _ _. by subst.
Qed.

(** Conversely, whatever the pattern accepts is a tagged line. *)
Lemma lrc_pattern_only s gs :
  re_match lrc_pattern s = Some gs →
  ∃ mm ss seps ff tail,
    tagged_line s mm ss seps ff tail ∧ gs = [mm; ss; ff; before_newline tail].
Proof.
  intros Hmatch. pose proof Hmatch as H.
  unfold lrc_pattern, lit, digits in H.
  cbn [re_match cls lo hi captured] in H.
  apply ReFacts.greedy_inv in H as (b0 & r0 & Hs0 & Hc0 & Hl0 & Hh0 & H).
  do 7 ParserFacts.peel.
  match goal with E : Some _ = Some _ |- _ => clear E end.
  repeat match goal with
         | Hh : ∀ h, Some _ = Some h → _ |- _ => specialize (Hh _ eq_refl)
         end.
  repeat match goal with
         | Hc : all_chars (Ascii.eqb _) ?m = true |- _ =>
             apply single_char in Hc; [subst m|done|done]
         end.
  subst.
  match goal with
  | |- context [ ?mm +:+ ":" +:+ ?ss +:+ ?seps +:+ ?ff +:+ "]" +:+ ?txt +:+ ?rest ] =>
      assert (Ht : tagged_line
                     ("[" +:+ mm +:+ ":" +:+ ss +:+ seps +:+ ff +:+ "]" +:+ txt +:+ rest)
                     mm ss seps ff (txt +:+ rest));
      [|exists mm, ss, seps, ff, (txt +:+ rest)]
  end.
  { repeat split; try done; try lia.
    intros ->. simpl in *. lia. }
  split; [done|].
  apply lrc_pattern_accepts in Ht. congruence.
Qed.

End PatternFacts.

(* ===================================================================== *)
(** ** What the parser takes and what it builds *)
(* ===================================================================== *)

Module LineFacts.
Import Py Text.

Lemma digit_value_range c : is_digit c = true → 0 ≤ digit_value c ≤ 9.
Proof.
  destruct c as [[] [] [] [] [] [] [] []]; vm_compute;
    intros; try discriminate; split; discriminate.
Qed.

Lemma parse_line_of_tagged line mm ss seps ff tail :
  tagged_line (strip line) mm ss seps ff tail →
  parse_line line = Some [line_of_tag mm ss ff tail].
Proof.
  intros Ht. pose proof Ht as (Hs & Lm & Dm & Ls & Ds & _ & _ & Lf & Df).
  unfold parse_line. rewrite (PatternFacts.lrc_pattern_accepts _ _ _ _ _ _ Ht).
  rewrite Hs. cbn [String.append truthy negb].
  destruct (ParserFacts.normalized_fraction ff Df Lf) as (Df' & Lf' & _).
  rewrite (ParserFacts.two_digits mm), (ParserFacts.two_digits ss) by done.
  rewrite PyFacts.int_decimal; [|done|by intros Heq; rewrite Heq in Lf'].
  by destruct ff as [|f1 [|f2 [|f3 [|? ?]]]]; simpl in Lf; try lia.
Qed.

Lemma parse_line_of_untagged line :
  Re.re_match lrc_pattern (strip line) = None → parse_line line = Some [].
Proof.
  intros Hm. unfold parse_line. rewrite Hm. by destruct (negb _).
Qed.

Lemma parse_line_cases line :
  (∃ mm ss seps ff tail,
      tagged_line (strip line) mm ss seps ff tail
      ∧ parse_line line = Some [line_of_tag mm ss ff tail])
  ∨ ((∀ mm ss seps ff tail, ¬ tagged_line (strip line) mm ss seps ff tail)
     ∧ parse_line line = Some []).
Proof.
  destruct (Re.re_match lrc_pattern (strip line)) as [gs|] eqn:Hm.
  - left. apply PatternFacts.lrc_pattern_only in Hm
      as (mm & ss & seps & ff & tail & Ht & _).
    exists mm, ss, seps, ff, tail. split; [done|].
    by apply (parse_line_of_tagged _ _ _ seps).
  - right. split; [|by apply parse_line_of_untagged].
    intros mm ss seps ff tail Ht.
    apply PatternFacts.lrc_pattern_accepts in Ht. congruence.
Qed.

(** What a line built from a tag looks like. *)
Lemma line_of_tag_well_formed s mm ss seps ff tail :
  tagged_line s mm ss seps ff tail →
  let l := line_of_tag mm ss ff tail in
  timestamp_centis (timestamp l) = Some (milliseconds l / 10)
  ∧ 0 ≤ milliseconds l ≤ 6039999
  ∧ strip (text l) = text l
  ∧ all_chars Re.dot (text l) = true.
Proof.
  intros (_ & Lm & Dm & Ls & Ds & _ & _ & Lf & Df) l. subst l.
  unfold line_of_tag. cbn [timestamp text milliseconds].
  split; [|split; [|split]].
  - destruct mm as [|m1 [|m2 [|? ?]]]; try discriminate.
    destruct ss as [|s1 [|s2 [|? ?]]]; try discriminate.
    simpl in Dm, Ds.
    apply andb_true_iff in Dm as [Dm1 [Dm2 _]%andb_true_iff].
    apply andb_true_iff in Ds as [Ds1 [Ds2 _]%andb_true_iff].
    destruct ff as [|f1 [|f2 [|f3 [|? ?]]]]; simpl in Lf; try lia;
      simpl in Df;
      repeat match goal with
             | H : _ && _ = true |- _ => apply andb_true_iff in H as [? H]
             end;
      cbn [String.append slice_to ljust replicate_char String.length Nat.sub
           timestamp_centis];
      rewrite !Ascii.eqb_refl;
      repeat match goal with
             | H : is_digit ?c = true |- _ => rewrite H
             end;
      cbn [andb]; f_equal; unfold decimal; cbn [decimal_from];
      repeat match goal with
             | H : is_digit ?c = true |- _ =>
                 apply digit_value_range in H
             end.
    + try change (digit_value "0") with 0.
      apply Z.div_unique with 0; lia.
    + apply Z.div_unique with (digit_value f3); lia.
  - destruct mm as [|m1 [|m2 [|? ?]]]; try discriminate.
    destruct ss as [|s1 [|s2 [|? ?]]]; try discriminate.
    simpl in Dm, Ds.
    apply andb_true_iff in Dm as [Dm1 [Dm2 _]%andb_true_iff].
    apply andb_true_iff in Ds as [Ds1 [Ds2 _]%andb_true_iff].
    destruct ff as [|f1 [|f2 [|f3 [|? ?]]]]; simpl in Lf; try lia;
      simpl in Df;
      repeat match goal with
             | H : _ && _ = true |- _ => apply andb_true_iff in H as [? H]
             end;
      cbn [String.append slice_to ljust replicate_char String.length Nat.sub];
      unfold decimal; cbn [decimal_from];
      repeat match goal with
             | H : is_digit ?c = true |- _ =>
                 apply digit_value_range in H
             end;
      try change (digit_value "0") with 0; lia.
  - apply StringFacts.strip_idempotent.
  - eapply StringFacts.all_chars_substring; [apply StringFacts.strip_substring|].
    apply PatternFacts.before_newline_dot.
Qed.

(** A line of the parser's output was built from some piece of the text. *)
Lemma parsed_line_origin lrc out l :
  _parse_lrc lrc = Some out → l ∈ out →
  ∃ piece, piece ∈ split_newline lrc ∧ parse_line piece = Some [l].
Proof.
  rewrite ParseLrcFacts.parse_lrc_collects. intros [= <-].
  rewrite SortedFacts.sorted_perm. unfold lines_in_order.
  intros (piece & Hl & Hpiece)%list_elem_of_bind.
  exists piece. split; [done|].
  destruct (ParserFacts.parse_line_total piece) as (new & Hnew & Hlen).
  rewrite Hnew in Hl |- *. simpl in Hl.
  destruct new as [|x [|? ?]]; simpl in Hlen; try lia.
  - by apply elem_of_nil in Hl.
  - apply list_elem_of_singleton in Hl. by subst.
Qed.

End LineFacts.

(** X1. [_parse_lrc] takes exactly the tagged lines of the text: a line
    is in its result exactly when it is [line_of_tag] of the parts of a
    piece of the text that, once stripped, is a tag of two-digit minutes,
    ":", two-digit seconds, one or more "." or ":" characters, a fraction
    of two or three digits and "]", followed by anything.  Every other
    piece gives nothing: the result has at most one line per piece, the
    text of one tagged piece gives exactly its line, and the text of one
    piece that is no tagged line gives no line.  So a run of separators is
    taken, and a fraction of one or four digits is not. *)
Theorem parse_lrc_takes_exactly_tagged_lines (lrc : string) :
  ∃ out, _parse_lrc lrc = Some out
  ∧ (∀ l, l ∈ out ↔
          ∃ line mm ss seps ff tail,
            line ∈ Py.split_newline lrc
            ∧ tagged_line (Py.strip line) mm ss seps ff tail
            ∧ l = line_of_tag mm ss ff tail)
  ∧ (length out ≤ length (Py.split_newline lrc))%nat
  ∧ (∀ line mm ss seps ff tail,
        Py.split_newline lrc = [line] →
        tagged_line (Py.strip line) mm ss seps ff tail →
        out = [line_of_tag mm ss ff tail])
  ∧ (∀ line,
        Py.split_newline lrc = [line] →
        (∀ mm ss seps ff tail, ¬ tagged_line (Py.strip line) mm ss seps ff tail) →
        out = []).
Proof.
  rewrite ParseLrcFacts.parse_lrc_collects. eexists. split; [done|].
  split; [|split; [|split]].
  - intros l. rewrite SortedFacts.sorted_perm. split.
    + unfold lines_in_order.
      intros (piece & Hl & Hpiece)%list_elem_of_bind.
      destruct (LineFacts.parse_line_cases piece)
        as [(mm & ss & seps & ff & tail & Ht & Hp)|[_ Hp]];
        rewrite Hp in Hl; simpl in Hl.
      * apply list_elem_of_singleton in Hl.
        by exists piece, mm, ss, seps, ff, tail.
      * by apply elem_of_nil in Hl.
    + intros (line & mm & ss & seps & ff & tail & Hin & Ht & ->).
      apply (CollectFacts.line_collected _ line); [done|].
      by apply (LineFacts.parse_line_of_tagged _ _ _ seps).
  - rewrite (Permutation_length (SortedFacts.sorted_perm _ _)).
    apply CollectFacts.lines_in_order_length.
  - intros line mm ss seps ff tail Hone Ht.
    pose proof (LineFacts.parse_line_of_tagged _ _ _ _ _ _ Ht) as Hp.
    pose proof (CollectFacts.parse_lrc_one_piece lrc line _ Hone Hp) as Hout.
    rewrite ParseLrcFacts.parse_lrc_collects in Hout.
    injection Hout; [done|simpl; lia].
  - intros line Hone Hno.
    destruct (LineFacts.parse_line_cases line)
      as [(mm & ss & seps & ff & tail & Ht & _)|[_ Hp]];
      [by destruct (Hno mm ss seps ff tail)|].
    pose proof (CollectFacts.parse_lrc_one_piece lrc line _ Hone Hp) as Hout.
    rewrite ParseLrcFacts.parse_lrc_collects in Hout.
    injection Hout; [done|simpl; lia].
Qed.

(** Witness for X1: of three pieces, the one with two separators and a
    three-digit fraction is taken. *)
Lemma parse_lrc_takes_exactly_tagged_lines_witness :
  ∃ out,
    _parse_lrc (Py.join_newline ["intro"; " [00:01.:557] hey "; "[00:02.5]no"])
    = Some out
    ∧ {| timestamp := "[00:01.55]"; text := "hey"; milliseconds := 1557 |} ∈ out
    ∧ (length out ≤ 3)%nat.
Proof.
  destruct (parse_lrc_takes_exactly_tagged_lines
              (Py.join_newline ["intro"; " [00:01.:557] hey "; "[00:02.5]no"]))
    as (out & Hout & Hiff & Hlen & _).
  exists out. split; [exact Hout|]. split; [|exact Hlen].
  apply Hiff.
  exists " [00:01.:557] hey ", "00", "01", ".:", "557", " hey".
  split; [vm_compute; apply list_elem_of_further, list_elem_of_here|].
  split; [|reflexivity].
  repeat split; simpl; try lia. discriminate.
Defined.

(** X2. Every line the parser returns is well formed: its display
    timestamp is "[mm:ss.xx]" and reads back as its offset in whole
    hundredths of a second (the offset divided by ten, rounded down); the
    offset is between 0 and 6039999 ms; the text has no white space at
    either end and no newline. *)
Theorem parsed_lines_well_formed (lrc : string) (out : list LyricLine)
    (l : LyricLine) :
  _parse_lrc lrc = Some out → l ∈ out →
  timestamp_centis (timestamp l) = Some (milliseconds l / 10)
  ∧ 0 ≤ milliseconds l ≤ 6039999
  ∧ Py.strip (text l) = text l
  ∧ Text.all_chars Re.dot (text l) = true.
Proof.
  intros Hout Hl.
  destruct (LineFacts.parsed_line_origin lrc out l Hout Hl) as (piece & _ & Hp).
  destruct (LineFacts.parse_line_cases piece)
    as [(mm & ss & seps & ff & tail & Ht & Hp')|[_ Hp']]; [|congruence].
  assert (l = line_of_tag mm ss ff tail) as -> by congruence.
  apply (LineFacts.line_of_tag_well_formed _ _ _ _ _ _ Ht).
Qed.

(** Witness for X2: the second line of a two-line text. *)
Lemma parsed_lines_well_formed_witness :
  let l := {| timestamp := "[01:02.34]"; text := "la"; milliseconds := 62345 |} in
  timestamp_centis (timestamp l) = Some (milliseconds l / 10)
  ∧ 0 ≤ milliseconds l ≤ 6039999
  ∧ Py.strip (text l) = text l
  ∧ Text.all_chars Re.dot (text l) = true.
Proof.
  refine (parsed_lines_well_formed
            (Py.join_newline ["[01:02.345] la "; "[00:00.00]"])
            [ {| timestamp := "[00:00.00]"; text := EmptyString; milliseconds := 0 |};
              {| timestamp := "[01:02.34]"; text := "la"; milliseconds := 62345 |} ]
            _ eq_refl _).
  apply list_elem_of_further, list_elem_of_here.
Defined.

(* ===================================================================== *)
(** ** The classifier against the parser *)
(* ===================================================================== *)

Module ClassifierFacts.
Import Py Text.

Lemma split_head s :
  ∃ rest, split_newline s = before_newline s :: rest.
Proof.
  induction s as [|c s [rest IH]]; simpl; [by eexists|].
  destruct (Ascii.eqb c newline); [by eexists|].
  rewrite IH. by eexists.
Qed.

Lemma before_newline_prefix s : substring (before_newline s) s.
Proof.
  exists EmptyString, (from_newline s). simpl.
  apply PatternFacts.split_at_newline.
Qed.

(** Every piece of [split('\n')] is a substring of the text. *)
Lemma split_piece_substring s : ∀ p, p ∈ split_newline s → substring p s.
Proof.
  induction s as [|c s IH]; intros p; simpl.
  - intros ->%list_elem_of_singleton. apply StringFacts.substring_refl.
  - destruct (Ascii.eqb c newline).
    + intros [->|Hp]%elem_of_cons.
      * by exists EmptyString, (String c s).
      * by apply StringFacts.substring_cons, IH.
    + destruct (split_head s) as [rest Hrest]. rewrite Hrest.
      intros [->|Hp]%elem_of_cons.
      * destruct (before_newline_prefix s) as (a & b & Hs).
        exists EmptyString, (from_newline s). simpl. f_equal.
        apply PatternFacts.split_at_newline.
      * apply StringFacts.substring_cons, IH. rewrite Hrest. by right.
Qed.

Lemma tagged_line_opening s mm ss seps ff tail :
  tagged_line s mm ss seps ff tail → starts_with_tag_opening s.
Proof.
  intros (-> & Lm & Dm & Ls & Ds & _).
  destruct mm as [|m1 [|m2 [|? ?]]]; try discriminate.
  destruct ss as [|s1 [|s2 [|? ?]]]; try discriminate.
  simpl in Dm, Ds.
  apply andb_true_iff in Dm as [Dm1 [Dm2 _]%andb_true_iff].
  apply andb_true_iff in Ds as [Ds1 [Ds2 _]%andb_true_iff].
  by exists m1, m2, s1, s2, (seps +:+ ff +:+ "]" +:+ tail).
Qed.

Lemma opening_in_substring t s :
  substring t s → starts_with_tag_opening t → contains_tag_opening s.
Proof.
  intros (a & b & ->) (d1 & d2 & d3 & d4 & post & -> & D).
  exists a. eexists. split; [done|].
  by exists d1, d2, d3, d4, (post +:+ b).
Qed.

Lemma is_synced_of_opening s : contains_tag_opening s → _is_synced s = true.
Proof.
  intros (pre & rest & -> & Hrest). unfold _is_synced.
  apply bool_decide_eq_true, re_search_somewhere.
  exists pre, rest. split; [done|]. by apply synced_pattern_match.
Qed.

End ClassifierFacts.

(** X3. The classifier never rejects text the parser could read: when
    [_is_synced] is false the parser finds no line at all, so building
    documents with an empty line list for unsynced text loses nothing; and
    whenever the parser returns a line the text is classified as synced. *)
Theorem unsynced_text_has_no_lines (lrc : string) :
  (_is_synced lrc = false → _parse_lrc lrc = Some [])
  ∧ (∀ out l, _parse_lrc lrc = Some out → l ∈ out → _is_synced lrc = true).
Proof.
  assert (Hsynced : ∀ out l, _parse_lrc lrc = Some out → l ∈ out →
                             _is_synced lrc = true).
  { intros out l Hout Hl.
    destruct (LineFacts.parsed_line_origin lrc out l Hout Hl) as (piece & Hin & Hp).
    destruct (LineFacts.parse_line_cases piece)
      as [(mm & ss & seps & ff & tail & Ht & _)|[_ Hp']]; [|congruence].
    apply ClassifierFacts.is_synced_of_opening.
    eapply ClassifierFacts.opening_in_substring;
      [|by eapply ClassifierFacts.tagged_line_opening].
    eapply StringFacts.substring_trans; [apply StringFacts.strip_substring|].
    by apply ClassifierFacts.split_piece_substring. }
  split; [|done]. intros Hplain.
  destruct (_parse_lrc lrc) as [out|] eqn:Hout.
  - destruct out as [|l out]; [done|].
    rewrite (Hsynced (l :: out) l eq_refl) in Hplain; [done|left].
  - by rewrite ParseLrcFacts.parse_lrc_collects in Hout.
Qed.

(** Witness for X3: plain words, and a text with one tagged line. *)
Lemma unsynced_text_has_no_lines_witness :
  _parse_lrc "just some words" = Some []
  ∧ _is_synced (Py.join_newline ["title"; "[00:10.00] go"]) = true.
Proof.
  split.
  - exact (proj1 (unsynced_text_has_no_lines "just some words") eq_refl).
  - refine (proj2 (unsynced_text_has_no_lines
                     (Py.join_newline ["title"; "[00:10.00] go"]))
              [ {| timestamp := "[00:10.00]"; text := "go"; milliseconds := 10000 |} ]
              {| timestamp := "[00:10.00]"; text := "go"; milliseconds := 10000 |}
              eq_refl _).
    apply list_elem_of_here.
Defined.

(* ===================================================================== *)
(** ** More about lookup by position *)
(* ===================================================================== *)

Module LoopFacts.

(** The loop returns what it was given or a line it saw that is not later
    than the requested time. *)
Lemma get_line_at_loop_result ls : ∀ t cur,
  get_line_at_loop ls t cur = cur
  ∨ ∃ l, get_line_at_loop ls t cur = Some l ∧ l ∈ ls ∧ milliseconds l ≤ t.
Proof.
  induction ls as [|line rest IH]; intros t cur; [by left|].
  cbn [get_line_at_loop].
  destruct (Z.leb_spec (milliseconds line) t) as [Hle|Hgt]; [|by left].
  right. destruct (IH t (Some line)) as [Heq|(l & Heq & Hin & Hl)].
  - exists line. rewrite Heq. repeat split; [left|done].
  - exists l. repeat split; [done|by right|done].
Qed.

Lemma get_line_at_loop_mono ls : ∀ t1 t2 cur1 cur2,
  StronglySorted le_ms ls → t1 ≤ t2 → not_after cur1 cur2 →
  (∀ a, cur1 = Some a → Forall (le_ms a) ls) →
  not_after (get_line_at_loop ls t1 cur1) (get_line_at_loop ls t2 cur2).
Proof.
  induction ls as [|line rest IH]; intros t1 t2 cur1 cur2 Hs Ht Hrel Hcur;
    [done|].
  apply StronglySorted_inv in Hs as [Hs Hline].
  cbn [get_line_at_loop].
  destruct (Z.leb_spec (milliseconds line) t1) as [H1|H1].
  - destruct (Z.leb_spec (milliseconds line) t2) as [H2|H2]; [|lia].
    apply IH; try done.
    + simpl. lia.
    + by intros a [= <-].
  - destruct (Z.leb_spec (milliseconds line) t2) as [H2|H2]; [|done].
    destruct cur1 as [a|]; [|done].
    specialize (Hcur a eq_refl). apply Forall_cons in Hcur as [Ha Hrest].
    unfold le_ms, Order.le_key in Ha.
    destruct (get_line_at_loop_result rest t2 (Some line))
      as [->|(l & -> & Hin & _)]; simpl; [done|].
    rewrite Forall_forall in Hline. specialize (Hline l Hin).
    unfold le_ms, Order.le_key in Hline. lia.
Qed.

End LoopFacts.

(** X4. Whatever the order of the lines, [get_line_at] never returns a
    line later than the requested time nor one that is not in the document;
    and it returns [None] exactly when there are no lines or the first
    line is later than the requested time. *)
Theorem get_line_at_never_later (doc : SyncedLyrics) (t : Z) :
  (∀ l, get_line_at doc t = Some l → l ∈ lines doc ∧ milliseconds l ≤ t)
  ∧ (get_line_at doc t = None ↔
     match lines doc with
     | [] => True
     | first :: _ => t < milliseconds first
     end).
Proof.
  unfold get_line_at. split.
  - intros l Hl.
    destruct (LoopFacts.get_line_at_loop_result (lines doc) t None)
      as [Heq|(l' & Heq & Hin & Hle)]; [congruence|].
    assert (l' = l) as -> by congruence. done.
  - destruct (lines doc) as [|first rest]; [done|].
    cbn [get_line_at_loop].
    destruct (Z.leb_spec (milliseconds first) t) as [Hle|Hgt].
    + split; [|lia].
      destruct (LoopFacts.get_line_at_loop_result rest t (Some first))
        as [->|(l' & -> & _)]; done.
    + done.
Qed.

(** Witness for X4: lines out of order; the loop stops at the first later
    line. *)
Lemma get_line_at_never_later_witness :
  let doc := mkSyncedLyrics "Song" "Artist" EmptyString
               [ mkLyricLine "[00:01.00]" "a" 1000;
                 mkLyricLine "[00:09.00]" "d" 9000;
                 mkLyricLine "[00:03.00]" "b" 3000 ] "lrclib" in
  mkLyricLine "[00:01.00]" "a" 1000 ∈ lines doc
  ∧ milliseconds (mkLyricLine "[00:01.00]" "a" 1000) ≤ 4000.
Proof.
  intros doc.
  exact (proj1 (get_line_at_never_later doc 4000)
           (mkLyricLine "[00:01.00]" "a" 1000) eq_refl).
Defined.

(** X5. On lines non-decreasing in [milliseconds] the lookup is monotone:
    a later time gives a line that is not earlier, and once some time gives
    a line every later time gives one too. *)
Theorem get_line_at_monotone (doc : SyncedLyrics) (t1 t2 : Z) (l1 : LyricLine) :
  nondecreasing_ms (lines doc) → t1 ≤ t2 →
  get_line_at doc t1 = Some l1 →
  ∃ l2, get_line_at doc t2 = Some l2 ∧ milliseconds l1 ≤ milliseconds l2.
Proof.
  intros Hs%SortedFacts.nondecreasing_strongly Ht H1.
  pose proof (LoopFacts.get_line_at_loop_mono (lines doc) t1 t2 None None
                Hs Ht I) as Hm.
  unfold get_line_at in *. rewrite H1 in Hm.
  destruct (get_line_at_loop (lines doc) t2 None) as [l2|].
  - exists l2. split; [done|]. by apply Hm.
  - by destruct Hm.
Qed.

(** Witness for X5: times 3500 and 9000 on four lines. *)
Lemma get_line_at_monotone_witness :
  let doc := mkSyncedLyrics "Song" "Artist" EmptyString
               [ mkLyricLine "[00:01.00]" "a" 1000;
                 mkLyricLine "[00:03.00]" "b" 3000;
                 mkLyricLine "[00:03.00]" "c" 3000;
                 mkLyricLine "[00:09.00]" "d" 9000 ] "lrclib" in
  ∃ l2, get_line_at doc 9000 = Some l2 ∧ 3000 ≤ milliseconds l2.
Proof.
  intros doc.
  refine (get_line_at_monotone doc 3500 9000 (mkLyricLine "[00:03.00]" "c" 3000)
            _ _ eq_refl).
  - repeat constructor; simpl; lia.
  - lia.
Defined.

(* ===================================================================== *)
(** ** More about the searcher *)
(* ===================================================================== *)

Module SearchFacts.

Lemma document_lines_parsed trk art raw name :
  _parse_lrc raw = Some (lines (document trk art raw name)).
Proof.
  pose proof (document_lines trk art raw name) as H.
  destruct (_is_synced raw) eqn:Hs; [done|]. rewrite H.
  destruct (_parse_lrc raw) as [out|] eqn:Hout.
  - destruct out as [|l out]; [done|].
    assert (l ∈ l :: out) as Hl by left.
    destruct (LineFacts.parsed_line_origin raw (l :: out) l Hout Hl)
      as (piece & Hin & Hp).
    destruct (LineFacts.parse_line_cases piece)
      as [(mm & ss & seps & ff & tail & Ht & _)|[_ Hp']]; [|congruence].
    assert (_is_synced raw = true); [|congruence].
    apply ClassifierFacts.is_synced_of_opening.
    eapply ClassifierFacts.opening_in_substring;
      [|by eapply ClassifierFacts.tagged_line_opening].
    eapply StringFacts.substring_trans; [apply StringFacts.strip_substring|].
    by apply ClassifierFacts.split_piece_substring.
  - by rewrite ParseLrcFacts.parse_lrc_collects in Hout.
Qed.

Lemma document_sorted trk art raw name :
  nondecreasing_ms (lines (document trk art raw name)).
Proof.
  pose proof (document_lines_parsed trk art raw name) as H.
  rewrite ParseLrcFacts.parse_lrc_collects in H.
  assert (Heq : Py.sorted milliseconds (lines_in_order (Py.split_newline raw))
                = lines (document trk art raw name)) by congruence.
  rewrite <- Heq. apply SortedFacts.sorted_nondecreasing.
Qed.

Lemma document_lookup trk art raw name t :
  get_line_at (document trk art raw name) t
  = last (filter (λ l, milliseconds l ≤ t) (lines (document trk art raw name))).
Proof.
  unfold get_line_at.
  rewrite LookupFacts.get_line_at_loop_last.
  - by destruct (last _).
  - apply SortedFacts.nondecreasing_strongly, document_sorted.
Qed.

Section WithProviders.
Context {World : Type}.
Variable get_lyrics :
  LyricsProvider → string → string → World → outcome * World.

Lemma search_all_documents providers trk art w doc :
  doc ∈ (search_all get_lyrics providers trk art w).1 →
  ∃ name raw, name ∈ providers.*1 ∧ doc = document trk art raw name
              ∧ raw ≠ EmptyString.
Proof.
  unfold search_all. rewrite search_all_loop_collects. cbn [fst app].
  revert w. induction providers as [|[name p] ps IH]; intros w.
  - simpl. by intros ?%elem_of_nil.
  - cbn [query_all]. destruct (get_lyrics p trk art w) as [o w'] eqn:Hg.
    specialize (IH w').
    destruct (query_all get_lyrics ps trk art w') as [os w''] eqn:Hq.
    cbn [fst] in *.
    intros (no & Hno & Hdoc)%list_elem_of_omap.
    apply elem_of_cons in Hno as [->|Hno].
    + unfold document_of in Hdoc. simpl in Hdoc.
      destruct o as [[raw|]|]; try done.
      destruct (Py.truthy raw) eqn:Hraw; [|done]. injection Hdoc as <-.
      exists name, raw. repeat split; [left|by destruct raw].
    + destruct IH as (n & raw & Hn & -> & Hraw).
      { apply list_elem_of_omap. by exists no. }
      exists n, raw. repeat split; [by right|done].
Qed.

(** [search] returns the first document of [search_all] that passes the
    gate. *)
Lemma search_head_of_search_all providers : ∀ trk art synced_only w,
  (search get_lyrics providers trk art synced_only w).1
  = head (List.filter (passes_gate synced_only)
            (search_all get_lyrics providers trk art w).1).
Proof.
  unfold search_all.
  induction providers as [|[name p] ps IH]; intros trk art so w; [done|].
  rewrite search_all_loop_collects. cbn [fst app query_all].
  destruct (get_lyrics p trk art w) as [o w'] eqn:Hg.
  specialize (IH trk art so w').
  rewrite search_all_loop_collects in IH. cbn [fst app] in IH.
  destruct (query_all get_lyrics ps trk art w') as [os w''] eqn:Hq.
  cbn [fst] in *.
  assert (Hcons : omap (document_of trk art) ((name, o) :: os)
                  = match document_of trk art (name, o) with
                    | Some doc => doc :: omap (document_of trk art) os
                    | None => omap (document_of trk art) os
                    end) by done.
  rewrite Hcons. clear Hcons.
  destruct (acceptable so o) eqn:Hacc.
  - destruct o as [[raw|]|]; try done.
    rewrite (search_accept get_lyrics _ _ _ _ _ _ _ _ _ Hg Hacc).
    simpl in Hacc. apply andb_true_iff in Hacc as [Hraw Hgate].
    unfold document_of. cbn [fst snd]. rewrite Hraw. cbn [List.filter].
    unfold passes_gate at 1. cbn [lrc document]. by rewrite Hgate.
  - rewrite (search_skip get_lyrics _ _ _ _ _ _ _ _ _ Hg Hacc), IH.
    unfold document_of at 2. cbn [fst snd].
    destruct o as [[raw|]|]; try done.
    simpl in Hacc. destruct (Py.truthy raw); [|done]. simpl in Hacc.
    cbn [List.filter]. unfold passes_gate at 2. cbn [lrc document].
    by rewrite Hacc.
Qed.

End WithProviders.
End SearchFacts.

(** X6. Every document [search] or [search_all] returns has as its lines
    exactly what the parser reads from its raw text (also for text the
    classifier calls unsynced), in non-decreasing order of offset; so
    [get_line_at] on it is always the last line not later than the
    requested time. *)
Theorem returned_documents_are_sorted {World : Type}
    (get_lyrics : LyricsProvider → string → string → World → outcome * World)
    (providers : list (string * LyricsProvider)) (trk art : string)
    (synced_only : bool) (w : World) (doc : SyncedLyrics) :
  (search get_lyrics providers trk art synced_only w).1 = Some doc
  ∨ doc ∈ (search_all get_lyrics providers trk art w).1 →
  _parse_lrc (lrc doc) = Some (lines doc)
  ∧ nondecreasing_ms (lines doc)
  ∧ ∀ t, get_line_at doc t
         = last (filter (λ l, milliseconds l ≤ t) (lines doc)).
Proof.
  intros Hdoc.
  assert (∃ name raw, doc = document trk art raw name) as (name & raw & ->).
  { destruct Hdoc as [Hs|Ha].
    - destruct (search get_lyrics providers trk art synced_only w)
        as [found w'] eqn:Heq.
      simpl in Hs. subst found.
      apply search_found in Heq as (name & raw & _ & -> & _). by eexists _, _.
    - apply SearchFacts.search_all_documents in Ha as (name & raw & _ & -> & _).
      by eexists _, _. }
  split; [apply SearchFacts.document_lines_parsed|].
  split; [apply SearchFacts.document_sorted|].
  apply SearchFacts.document_lookup.
Qed.

(** Witness for X6: the document found for out-of-order text. *)
Lemma returned_documents_are_sorted_witness :
  let doc := document "Song" "Artist" Demo.two_lines "netease" in
  _parse_lrc (lrc doc) = Some (lines doc)
  ∧ nondecreasing_ms (lines doc)
  ∧ ∀ t, get_line_at doc t
         = last (filter (λ l, milliseconds l ≤ t) (lines doc)).
Proof.
  intros doc.
  refine (returned_documents_are_sorted Demo.get_lyrics
            [Demo.provider 3; Demo.provider 4] "Song" "Artist" true [] doc
            (or_introl _)).
  vm_compute. reflexivity.
Defined.

(** X7. [search] agrees with [search_all]: its result is the first of the
    documents [search_all] would return that passes the synced-only gate
    (the first of all of them when [synced_only] is false), and [None]
    when none does. *)
Theorem search_is_first_of_search_all {World : Type}
    (get_lyrics : LyricsProvider → string → string → World → outcome * World)
    (providers : list (string * LyricsProvider)) (trk art : string)
    (synced_only : bool) (w : World) :
  (search get_lyrics providers trk art synced_only w).1
  = head (List.filter (passes_gate synced_only)
            (search_all get_lyrics providers trk art w).1)
  ∧ (search get_lyrics providers trk art false w).1
    = head (search_all get_lyrics providers trk art w).1.
Proof.
  split; [apply SearchFacts.search_head_of_search_all|].
  rewrite SearchFacts.search_head_of_search_all. f_equal.
  induction (search_all get_lyrics providers trk art w).1 as [|d ds IH];
    [done|].
  simpl. by rewrite IH.
Qed.

(** X8. Dropping the synced-only requirement never loses a result: when
    [search] finds a document with [synced_only] set it also finds one
    without it, and when it finds none without it, it finds none with
    it. *)
Theorem relaxed_search_finds_no_less {World : Type}
    (get_lyrics : LyricsProvider → string → string → World → outcome * World)
    (providers : list (string * LyricsProvider)) (trk art : string) (w : World) :
  (∀ doc, (search get_lyrics providers trk art true w).1 = Some doc →
          ∃ doc', (search get_lyrics providers trk art false w).1 = Some doc')
  ∧ ((search get_lyrics providers trk art false w).1 = None →
     (search get_lyrics providers trk art true w).1 = None).
Proof.
  rewrite !SearchFacts.search_head_of_search_all.
  induction (search_all get_lyrics providers trk art w).1 as [|d ds [IH1 IH2]].
  - split; [by intros doc|done].
  - split.
    + intros doc _. simpl. by eexists.
    + simpl. done.
Qed.

(** Witness for X8: plain text first, synced text second. *)
Lemma relaxed_search_finds_no_less_witness :
  ∃ doc', (search Demo.get_lyrics [Demo.provider 3; Demo.provider 4]
             "Song" "Artist" false []).1 = Some doc'.
Proof.
  refine (proj1 (relaxed_search_finds_no_less Demo.get_lyrics
                   [Demo.provider 3; Demo.provider 4] "Song" "Artist" [])
            (document "Song" "Artist" Demo.two_lines "netease") _).
  vm_compute. reflexivity.
Defined.

(* ===================================================================== *)
(** ** More about construction *)
(* ===================================================================== *)

Module ConfigFacts.

Lemma filter_all {A} (P : A → Prop) `{∀ x, Decision (P x)} (l : list A) :
  Forall P l → filter P l = l.
Proof.
  induction 1 as [|x l Hx Hl IH]; [done|].
  by rewrite filter_cons_True, IH.
Qed.

Lemma filter_none {A} (P : A → Prop) `{∀ x, Decision (P x)} (l : list A) :
  Forall (λ x, ¬ P x) l → filter P l = [].
Proof.
  induction 1 as [|x l Hx Hl IH]; [done|].
  by rewrite filter_cons_False.
Qed.

Lemma init_names names next_id :
  (__init__ (Some names) next_id).*1 = filter recognized names.
Proof. apply InitFacts.init_loop_names. Qed.

Lemma providers_of_items : PROVIDERS = list_to_map PROVIDERS_items.
Proof. done. Qed.

End ConfigFacts.

(** X9. A name list with no recognized name (the empty list among them)
    gives a searcher with no provider: [search] then returns [None] and
    [search_all] returns no document, and neither calls anything. *)
Theorem unrecognized_names_find_nothing (names : list string) (next_id : nat) :
  Forall (λ name, ¬ recognized name) names →
  __init__ (Some names) next_id = []
  ∧ ∀ {World : Type}
      (get_lyrics : LyricsProvider → string → string → World → outcome * World)
      (trk art : string) (synced_only : bool) (w : World),
      search get_lyrics (__init__ (Some names) next_id) trk art synced_only w
      = (None, w)
      ∧ search_all get_lyrics (__init__ (Some names) next_id) trk art w
        = ([], w).
Proof.
  intros Hnames.
  assert (Hnil : __init__ (Some names) next_id = []).
  { apply fmap_nil_inv with (f := fst).
    rewrite ConfigFacts.init_names. by apply ConfigFacts.filter_none. }
  split; [done|]. intros World get_lyrics trk art so w. by rewrite Hnil.
Qed.

(** Witness for X9: two names that are not registered. *)
Lemma unrecognized_names_find_nothing_witness :
  __init__ (Some ["spotify"; "genius"]) 7 = []
  ∧ ∀ {World : Type}
      (get_lyrics : LyricsProvider → string → string → World → outcome * World)
      (trk art : string) (synced_only : bool) (w : World),
      search get_lyrics (__init__ (Some ["spotify"; "genius"]) 7)
        trk art synced_only w = (None, w)
      ∧ search_all get_lyrics (__init__ (Some ["spotify"; "genius"]) 7)
          trk art w = ([], w).
Proof.
  apply (unrecognized_names_find_nothing ["spotify"; "genius"] 7).
  repeat constructor; intros [cl Hcl]; vm_compute in Hcl; discriminate.
Defined.

(** X10. [available_providers()] lists exactly the names construction
    recognizes, each once: a name is kept by [__init__] if and only if it
    is in that list.  Constructing from the list itself, or from no list
    at all, activates every listed provider in listing order. *)
Theorem available_providers_are_the_recognized_names :
  PROVIDERS = list_to_map PROVIDERS_items
  ∧ (∀ name, name ∈ available_providers ↔ recognized name)
  ∧ NoDup available_providers
  ∧ (∀ next_id,
       (__init__ (Some available_providers) next_id).*1 = available_providers
       ∧ (__init__ None next_id).*1 = available_providers).
Proof.
  split; [apply ConfigFacts.providers_of_items|]. split; [|split].
  - intros name. rewrite InitFacts.recognized_names. done.
  - unfold available_providers. simpl.
    repeat (constructor; [by rewrite ?elem_of_cons, ?elem_of_nil; intuition discriminate|]).
    constructor.
  - intros next_id.
    assert (Hall : Forall recognized available_providers).
    { apply Forall_forall. intros name Hin.
      by apply InitFacts.recognized_names. }
    split.
    + rewrite ConfigFacts.init_names. by apply ConfigFacts.filter_all.
    + unfold __init__. cbn [default].
      change DEFAULT_ORDER with available_providers.
      rewrite InitFacts.init_loop_names. by apply ConfigFacts.filter_all.
Qed.

(** X11. The active names are a sub-list of the names given, so no more
    than were given; a list of recognized names only is kept whole; and
    constructing again from the active names of a searcher gives the same
    active names. *)
Theorem active_names_are_stable (names : list string) (next_id : nat) :
  let active := (__init__ (Some names) next_id).*1 in
  sublist active names
  ∧ (length active ≤ length names)%nat
  ∧ (Forall recognized names → active = names)
  ∧ (∀ next_id', (__init__ (Some active) next_id').*1 = active).
Proof.
  intros active. subst active. rewrite ConfigFacts.init_names.
  split; [apply sublist_filter|].
  split; [apply length_filter|].
  split; [apply ConfigFacts.filter_all|].
  intros next_id'. rewrite ConfigFacts.init_names.
  apply ConfigFacts.filter_all, Forall_forall.
  by intros name [? _]%list_elem_of_filter.
Qed.

(** Witness for X11: two recognized names, one of them twice. *)
Lemma active_names_are_stable_witness :
  (__init__ (Some ["netease"; "lrclib"; "netease"]) 0).*1
  = ["netease"; "lrclib"; "netease"].
Proof.
  refine (proj1 (proj2 (proj2
            (active_names_are_stable ["netease"; "lrclib"; "netease"] 0))) _).
  repeat constructor; eexists; vm_compute; reflexivity.
Defined.

(* ===================================================================== *)
(** ** Plain text, line endings, untagged lines *)
(* ===================================================================== *)

Module TextFacts.
Import Py Text.

Lemma rstrip_append_space s c :
  is_space c = true → rstrip (s +:+ String c EmptyString) = rstrip s.
Proof.
  intros Hc. induction s as [|d s IH]; simpl; [by rewrite Hc|].
  by rewrite IH.
Qed.

Lemma lstrip_append_space s c :
  is_space c = true →
  (lstrip (s +:+ String c EmptyString) = EmptyString ∧ lstrip s = EmptyString)
  ∨ lstrip (s +:+ String c EmptyString) = lstrip s +:+ String c EmptyString.
Proof.
  intros Hc. induction s as [|d s IH]; simpl.
  - rewrite Hc. by left.
  - destruct (is_space d); [done|by right].
Qed.

(** White space added at the end of a line is not seen by [strip]. *)
Lemma strip_append_space s c :
  is_space c = true → strip (s +:+ String c EmptyString) = strip s.
Proof.
  intros Hc. unfold strip.
  destruct (lstrip_append_space s c Hc) as [[-> ->] | ->]; [done|].
  by apply rstrip_append_space.
Qed.

Lemma parse_line_strip p q : strip p = strip q → parse_line p = parse_line q.
Proof. intros H. unfold parse_line. by rewrite H. Qed.

(** The lines collected from the join of newline-free pieces are those of
    the pieces. *)
Lemma lines_of_join pieces :
  Forall (λ p, all_chars Re.dot p = true) pieces →
  lines_in_order (split_newline (join_newline pieces)) = lines_in_order pieces.
Proof.
  intros Hps. destruct pieces as [|p ps]; [done|].
  by rewrite ParseLrcFacts.split_join.
Qed.

Lemma parse_lrc_of_join pieces :
  Forall (λ p, all_chars Re.dot p = true) pieces →
  _parse_lrc (join_newline pieces)
  = Some (sorted milliseconds (lines_in_order pieces)).
Proof.
  intros Hps. by rewrite ParseLrcFacts.parse_lrc_collects, lines_of_join.
Qed.

Lemma join_texts_split (ts : list string) :
  Forall (λ t, all_chars Re.dot t = true) ts → ts ≠ [] →
  split_newline (join_newline ts) = ts.
Proof. apply ParseLrcFacts.split_join. Qed.

End TextFacts.

(** X12. When no line's text contains a newline (as in every parsed
    document), the plain text has exactly one line for each line with a
    non-empty text, in order, and no blank line: splitting it at newlines
    gives those texts back; it is empty when no line has text. *)
Theorem plain_text_has_one_line_per_text (doc : SyncedLyrics) :
  Forall (λ l, Text.all_chars Re.dot (text l) = true) (lines doc) →
  to_plain_text doc = Py.join_newline (texts_of doc)
  ∧ Forall (λ t, t ≠ EmptyString) (texts_of doc)
  ∧ (texts_of doc ≠ [] → Py.split_newline (to_plain_text doc) = texts_of doc)
  ∧ (texts_of doc = [] → to_plain_text doc = EmptyString).
Proof.
  intros Hdot. split; [done|]. split; [|split].
  - unfold texts_of. apply Forall_fmap, Forall_forall.
    intros l Hl. apply list_elem_of_In, filter_In in Hl as [_ Hl].
    simpl. by destruct (text l).
  - intros Hne. unfold to_plain_text. fold (texts_of doc).
    apply TextFacts.join_texts_split; [|done].
    unfold texts_of. apply Forall_fmap, Forall_forall.
    intros l Hl. apply list_elem_of_In, filter_In in Hl as [Hin _]. simpl.
    rewrite Forall_forall in Hdot. by apply Hdot, list_elem_of_In.
  - intros Hnil. unfold to_plain_text. fold (texts_of doc). by rewrite Hnil.
Qed.

(** Witness for X12: three lines, the middle one instrumental. *)
Lemma plain_text_has_one_line_per_text_witness :
  let doc := mkSyncedLyrics "Song" "Artist" EmptyString
               [ mkLyricLine "[00:01.00]" "one" 1000;
                 mkLyricLine "[00:02.00]" EmptyString 2000;
                 mkLyricLine "[00:03.00]" "three" 3000 ] "lrclib" in
  Py.split_newline (to_plain_text doc) = ["one"; "three"].
Proof.
  intros doc.
  refine (proj1 (proj2 (proj2 (plain_text_has_one_line_per_text doc _))) _).
  - repeat constructor.
  - discriminate.
Defined.

(** X13. Carriage returns at line ends are not seen: a text whose lines
    end in CR LF parses to the same list as the text with LF endings. *)
Theorem crlf_parses_like_lf (pieces : list string) :
  Forall (λ p, Text.all_chars Re.dot p = true) pieces →
  _parse_lrc (Py.join_newline
                ((λ p, p +:+ String carriage_return EmptyString) <$> pieces))
  = _parse_lrc (Py.join_newline pieces).
Proof.
  intros Hps.
  rewrite !TextFacts.parse_lrc_of_join; [|done|].
  - f_equal. f_equal. unfold lines_in_order.
    induction pieces as [|p ps IH]; [done|].
    apply Forall_cons in Hps as [_ Hps].
    rewrite fmap_cons, !bind_cons, (IH Hps). f_equal. f_equal.
    apply TextFacts.parse_line_strip, TextFacts.strip_append_space. done.
  - apply Forall_fmap. eapply Forall_impl; [exact Hps|].
    intros p Hp. simpl. rewrite StringFacts.all_chars_append, Hp. done.
Qed.

(** Witness for X13: two lines with CR LF endings. *)
Lemma crlf_parses_like_lf_witness :
  _parse_lrc (Py.join_newline
                ((λ p, p +:+ String carriage_return EmptyString)
                   <$> ["[00:02.00]two"; "[00:01.00]one"]))
  = _parse_lrc (Py.join_newline ["[00:02.00]two"; "[00:01.00]one"]).
Proof.
  apply (crlf_parses_like_lf ["[00:02.00]two"; "[00:01.00]one"]).
  repeat constructor.
Defined.

(** X14. A line that is blank or has no leading tag (once stripped it is
    not a tagged line) can be inserted anywhere in a text, or removed from
    it, without changing what the parser returns. *)
Theorem untagged_lines_are_ignored (before after : list string) (junk : string) :
  Forall (λ p, Text.all_chars Re.dot p = true) (before ++ junk :: after) →
  (∀ mm ss seps ff tail, ¬ tagged_line (Py.strip junk) mm ss seps ff tail) →
  _parse_lrc (Py.join_newline (before ++ junk :: after))
  = _parse_lrc (Py.join_newline (before ++ after)).
Proof.
  intros Hps Hjunk.
  assert (Hps' : Forall (λ p, Text.all_chars Re.dot p = true) (before ++ after)).
  { apply Forall_app in Hps as [H1 [_ H2]%Forall_cons]. by apply Forall_app. }
  rewrite !TextFacts.parse_lrc_of_join by done.
  f_equal. f_equal. unfold lines_in_order.
  rewrite !bind_app, bind_cons.
  destruct (LineFacts.parse_line_cases junk)
    as [(mm & ss & seps & ff & tail & Ht & _)|[_ ->]]; [|done].
  by destruct (Hjunk mm ss seps ff tail).
Qed.

(** Witness for X14: a title line and a blank line between two tagged
    lines. *)
Lemma untagged_lines_are_ignored_witness :
  _parse_lrc (Py.join_newline (["[00:01.00]one"] ++ "Chorus:" :: ["[00:02.00]two"]))
  = _parse_lrc (Py.join_newline (["[00:01.00]one"] ++ ["[00:02.00]two"])).
Proof.
  apply (untagged_lines_are_ignored ["[00:01.00]one"] ["[00:02.00]two"] "Chorus:").
  - repeat constructor.
  - intros mm ss seps ff tail (Hs & _). destruct mm; discriminate.
Defined.

(* ===================================================================== *)
(** ** Facts about substitution *)
(* ===================================================================== *)

Module SubFacts.
Import Py Text ReSub.

Lemma sub_from_skip p repl a : ∀ b n,
  String.length a = n →
  sub_from p repl n (a +:+ b) = sub_from p repl 0 b.
Proof.
  induction a as [|c a IH]; intros b n Hn; simpl in Hn; subst n; [done|].
  simpl. by apply IH.
Qed.

(** Where the pattern matches a non-empty [m], [sub] emits the replacement
    and goes on after [m]. *)
Lemma sub_from_match p repl c m rest :
  match_rest p (String c m +:+ rest) = Some rest →
  sub_from p repl 0 (String c m +:+ rest) = repl +:+ sub_from p repl 0 rest.
Proof.
  intros Hm. cbn [String.append sub_from]. cbn [String.append] in Hm.
  rewrite Hm.
  replace (String.length (String c (m +:+ rest)) - String.length rest)%nat
    with (S (String.length m)).
  - by rewrite sub_from_skip.
  - simpl. rewrite StringFacts.length_append. lia.
Qed.

Lemma sub_from_no_match p repl c s :
  match_rest p (String c s) = None →
  sub_from p repl 0 (String c s) = String c (sub_from p repl 0 s).
Proof. intros Hm. cbn [sub_from]. by rewrite Hm. Qed.

(** With no match anywhere, [sub] changes nothing. *)
Lemma sub_never_matches p repl s : never_matches p s → sub p repl s = s.
Proof.
  unfold sub. induction s as [|c s IH]; simpl.
  - by intros ->.
  - intros [-> Hs]. by rewrite IH.
Qed.

(** Passing a prefix in which the pattern never starts a match. *)
Lemma sub_from_prefix p repl a b :
  (∀ a1 c a2, a = a1 +:+ String c a2 → match_rest p (String c a2 +:+ b) = None) →
  sub_from p repl 0 (a +:+ b) = a +:+ sub_from p repl 0 b.
Proof.
  induction a as [|c a IH]; intros Hno; [done|].
  cbn [String.append]. rewrite sub_from_no_match.
  - f_equal. apply IH. intros a1 d a2 ->. by apply (Hno (String c a1)).
  - by apply (Hno EmptyString c a).
Qed.

Lemma match_rest_one cl p s :
  match_rest (one cl :: p) s
  = match s with
    | String c s' => if cl c then match_rest p s' else None
    | EmptyString => None
    end.
Proof. unfold one. cbn [match_rest]. apply ReFacts.greedy_once. Qed.

(** A pattern that starts with one character of a class cannot match where
    no character of the class is. *)
Lemma never_matches_one cl p s :
  all_chars (λ c, negb (cl c)) s = true → never_matches (one cl :: p) s.
Proof.
  induction s as [|c s IH]; cbn [never_matches all_chars].
  - intros _. by rewrite match_rest_one.
  - intros [Hc Hs]%andb_true_iff. split; [|by apply IH].
    rewrite match_rest_one. apply negb_true_iff in Hc. by rewrite Hc.
Qed.

(** [str.replace] changes nothing where the first character of [old]
    does not occur. *)
Lemma replace_absent c old new s :
  all_chars (λ d, negb (Ascii.eqb d c)) s = true →
  PyStr.replace (String c old) new s = s.
Proof.
  unfold PyStr.replace. induction s as [|d s IH]; simpl; [done|].
  intros [Hd Hs]%andb_true_iff. apply negb_true_iff in Hd.
  rewrite Ascii.eqb_sym in Hd.
  replace (if Ascii.ascii_dec c d then String.prefix old s else false)
    with false.
  - by rewrite IH.
  - destruct (Ascii.ascii_dec c d) as [->|]; [|done].
    by rewrite Ascii.eqb_refl in Hd.
Qed.

End SubFacts.

(* ===================================================================== *)
(** ** The Megalobiz cleaner *)
(* ===================================================================== *)

Module CleanLrcFacts.
Import Py Text ReSub.

Lemma all_chars_impl (f g : ascii → bool) s :
  (∀ c, f c = true → g c = true) → all_chars f s = true → all_chars g s = true.
Proof.
  intros Hfg. induction s as [|c s IH]; simpl; [done|].
  intros [Hc Hs]%andb_true_iff. by rewrite (Hfg c Hc), IH.
Qed.

Lemma all_chars_join f ps :
  f newline = true → Forall (λ p, all_chars f p = true) ps →
  all_chars f (join_newline ps) = true.
Proof.
  intros Hnl. induction 1 as [|p ps Hp Hps IH]; [done|].
  destruct ps as [|q ps]; [done|].
  change (join_newline (p :: q :: ps))
    with (p +:+ String newline (join_newline (q :: ps))).
  rewrite StringFacts.all_chars_append, Hp. cbn [andb all_chars].
  by rewrite Hnl, IH.
Qed.

(** No piece of [split('\n')] contains a newline. *)
Lemma split_pieces_dot s : Forall (λ p, all_chars Re.dot p = true) (split_newline s).
Proof.
  induction s as [|c s IH]; simpl; [by repeat constructor|].
  destruct (Ascii.eqb c newline) eqn:Hc; [by constructor|].
  assert (Hdot : Re.dot c = true) by (unfold Re.dot; by rewrite Hc).
  destruct (split_newline s) as [|p ps].
  - repeat constructor. simpl. by rewrite Hdot.
  - apply Forall_cons in IH as [Hp Hps]. constructor; [|done].
    simpl. by rewrite Hdot.
Qed.

Lemma split_pieces_all f s :
  all_chars f s = true → Forall (λ p, all_chars f p = true) (split_newline s).
Proof.
  intros Hs. apply Forall_forall. intros p Hp.
  eapply StringFacts.all_chars_substring; [|done].
  by apply ClassifierFacts.split_piece_substring.
Qed.

(** The lines [tidy_lines] keeps. *)
Lemma kept_lines_tidy s :
  Forall (λ p, p ≠ EmptyString ∧ strip p = p ∧ all_chars Re.dot p = true)
    (List.filter truthy (strip <$> split_newline s)).
Proof.
  apply Forall_forall. intros p Hp.
  apply list_elem_of_In, filter_In in Hp as [Hin Hne].
  apply list_elem_of_In, list_elem_of_fmap in Hin as (q & -> & Hq).
  split; [by destruct (strip q)|]. split; [apply StringFacts.strip_idempotent|].
  eapply StringFacts.all_chars_substring; [apply StringFacts.strip_substring|].
  pose proof (split_pieces_dot s) as Hdot. rewrite Forall_forall in Hdot.
  by apply Hdot.
Qed.

Lemma tidy_lines_split s :
  tidy_lines s = EmptyString
  ∨ split_newline (tidy_lines s)
    = List.filter truthy (strip <$> split_newline s).
Proof.
  unfold tidy_lines.
  destruct (List.filter truthy (strip <$> split_newline s)) as [|p ps] eqn:Hk;
    [by left|].
  right. apply ParseLrcFacts.split_join; [|done].
  rewrite <- Hk. eapply Forall_impl; [apply kept_lines_tidy|].
  by intros q (_ & _ & Hq).
Qed.

(** Stripping lines and dropping blank ones is invisible to the parser. *)
Lemma lines_in_order_tidy ps :
  lines_in_order (List.filter truthy (strip <$> ps)) = lines_in_order ps.
Proof.
  unfold lines_in_order. induction ps as [|p ps IH]; [done|].
  rewrite fmap_cons, bind_cons. cbn [List.filter].
  destruct (truthy (strip p)) eqn:Hp.
  - rewrite bind_cons, IH. f_equal. f_equal.
    apply TextFacts.parse_line_strip, StringFacts.strip_idempotent.
  - rewrite IH. unfold parse_line at 2. by rewrite Hp.
Qed.

Lemma parse_tidy_lines s : _parse_lrc (tidy_lines s) = _parse_lrc s.
Proof.
  unfold tidy_lines. rewrite TextFacts.parse_lrc_of_join.
  - by rewrite lines_in_order_tidy, ParseLrcFacts.parse_lrc_collects.
  - eapply Forall_impl; [apply kept_lines_tidy|]. by intros q (_ & _ & Hq).
Qed.

Lemma tidy_fixes_tidy_lines (ks : list string) :
  Forall (λ p, p ≠ EmptyString ∧ strip p = p ∧ all_chars Re.dot p = true) ks →
  List.filter truthy (strip <$> ks) = ks.
Proof.
  induction 1 as [|p ps (Hne & Hp & _) Hps IH]; [done|].
  rewrite fmap_cons, Hp. cbn [List.filter].
  destruct p; [done|]. cbn [truthy]. by rewrite IH.
Qed.

Lemma tidy_lines_idempotent s : tidy_lines (tidy_lines s) = tidy_lines s.
Proof.
  destruct (tidy_lines_split s) as [->|Hsplit]; [done|].
  unfold tidy_lines at 1. rewrite Hsplit.
  by rewrite tidy_fixes_tidy_lines by apply kept_lines_tidy.
Qed.

Lemma markup_free_no_lt s :
  markup_free s = true → all_chars (λ c, negb (Ascii.eqb "<" c)) s = true.
Proof.
  apply all_chars_impl. intros c [H _]%andb_true_iff.
  by rewrite Ascii.eqb_sym.
Qed.

Lemma markup_free_no_amp s :
  markup_free s = true → all_chars (λ c, negb (Ascii.eqb c "&")) s = true.
Proof. apply all_chars_impl. by intros c [_ H]%andb_true_iff. Qed.

(** Text without "<" and "&" has nothing to decode. *)
Lemma decode_html_markup_free s : markup_free s = true → decode_html s = s.
Proof.
  intros Hs. unfold decode_html.
  rewrite (SubFacts.sub_never_matches br_pattern)
    by apply SubFacts.never_matches_one, markup_free_no_lt, Hs.
  rewrite (SubFacts.sub_never_matches tag_pattern)
    by apply SubFacts.never_matches_one, markup_free_no_lt, Hs.
  by do 6 rewrite (SubFacts.replace_absent _ _ _ s)
    by apply markup_free_no_amp, Hs.
Qed.

Lemma markup_free_tidy s : markup_free s = true → markup_free (tidy_lines s) = true.
Proof.
  intros Hs. unfold tidy_lines, markup_free. apply all_chars_join; [done|].
  apply Forall_forall. intros p Hp.
  apply list_elem_of_In, filter_In in Hp as [Hin _].
  apply list_elem_of_In, list_elem_of_fmap in Hin as (q & -> & Hq).
  eapply StringFacts.all_chars_substring; [apply StringFacts.strip_substring|].
  pose proof (split_pieces_all _ s Hs) as Hall. rewrite Forall_forall in Hall.
  by apply Hall.
Qed.

(** The line-break pattern matches a line-break tag, whatever follows. *)
Lemma br_pattern_matches t rest :
  br_tag t → match_rest br_pattern (t +:+ rest) = Some rest.
Proof.
  intros (ws & slash & -> & Hws & Hslash).
  unfold br_pattern, lit. cbn [String.append].
  rewrite !SubFacts.match_rest_one, !Ascii.eqb_refl.
  cbn [match_rest]. rewrite !StringFacts.append_assoc.
  assert (Hk : Re.greedy (Ascii.eqb "/") 0 (Some 1%nat) (slash +:+ ">" +:+ rest)
                 (λ _ r, match_rest [one (Ascii.eqb ">")] r) = Some rest).
  { destruct Hslash as [-> | ->]; cbn [String.append Re.greedy].
    - replace (Ascii.eqb "/" ">") with false by reflexivity.
      cbn [andb]. by rewrite SubFacts.match_rest_one.
    - rewrite Ascii.eqb_refl.
      cbn [andb Re.may_take Nat.pred fmap option_fmap option_map].
      rewrite ?andb_false_r, ?ReFacts.greedy_none.
      by rewrite (SubFacts.match_rest_one _ _ (String ">" rest)), Ascii.eqb_refl. }
  rewrite PatternFacts.greedy_run; try done; try lia;
    try (by destruct Hslash as [-> | ->]); by rewrite Hk.
Qed.

Lemma br_tag_nonempty t : br_tag t → ∃ m, t = String "<" m.
Proof. intros (ws & slash & -> & _). by eexists. Qed.

(** Line-break tags between pieces without markup become newlines. *)
Lemma sub_br_join t pieces :
  br_tag t → Forall (λ p, markup_free p = true) pieces →
  sub br_pattern (String newline EmptyString) (join_with t pieces)
  = join_newline pieces.
Proof.
  intros Ht. induction 1 as [|p ps Hp Hps IH]; [done|].
  destruct ps as [|q ps].
  - simpl. apply SubFacts.sub_never_matches, SubFacts.never_matches_one.
    by apply markup_free_no_lt.
  - change (join_with t (p :: q :: ps))
      with (p +:+ t +:+ join_with t (q :: ps)).
    change (join_newline (p :: q :: ps))
      with (p +:+ String newline (join_newline (q :: ps))).
    unfold sub in *. rewrite SubFacts.sub_from_prefix.
    + f_equal. destruct (br_tag_nonempty t Ht) as [m Hm].
      pose proof (br_pattern_matches t (join_with t (q :: ps)) Ht) as Hmatch.
      rewrite Hm in Hmatch |- *.
      rewrite (SubFacts.sub_from_match _ _ _ _ _ Hmatch).
      cbn [String.append]. rewrite <- Hm. by rewrite IH.
    + intros a1 c a2 ->. unfold br_pattern, lit.
      rewrite SubFacts.match_rest_one. cbn [String.append].
      apply markup_free_no_lt in Hp.
      rewrite StringFacts.all_chars_append in Hp.
      apply andb_true_iff in Hp as [_ Hp]. cbn [all_chars] in Hp.
      apply andb_true_iff in Hp as [Hc _]. apply negb_true_iff in Hc.
      by rewrite Hc.
Qed.

End CleanLrcFacts.

(** X15. The text [_clean_lrc] returns has no blank line and no line with
    white space at either end: it is empty, or each of its lines is
    non-empty and stripped. *)
Theorem clean_lrc_lines_are_tidy (lrc : string) :
  _clean_lrc lrc = EmptyString
  ∨ Forall (λ p, p ≠ EmptyString ∧ Py.strip p = p)
      (Py.split_newline (_clean_lrc lrc)).
Proof.
  unfold _clean_lrc.
  destruct (CleanLrcFacts.tidy_lines_split (decode_html lrc)) as [-> | ->];
    [by left|right].
  eapply Forall_impl; [apply CleanLrcFacts.kept_lines_tidy|].
  by intros p (? & ? & _).
Qed.

(** X16. The white-space cleanup of [_clean_lrc] is invisible to the
    parser: the cleaned text parses to the same lines as the text with
    only its markup decoded.  Text with no "<" and no "&" has no markup, so
    it parses the same before and after cleaning, and cleaning it twice is
    cleaning it once. *)
Theorem clean_lrc_keeps_the_parse (lrc : string) :
  _parse_lrc (_clean_lrc lrc) = _parse_lrc (decode_html lrc)
  ∧ (markup_free lrc = true →
     decode_html lrc = lrc
     ∧ _parse_lrc (_clean_lrc lrc) = _parse_lrc lrc
     ∧ _clean_lrc (_clean_lrc lrc) = _clean_lrc lrc).
Proof.
  unfold _clean_lrc. split; [apply CleanLrcFacts.parse_tidy_lines|].
  intros Hfree.
  rewrite (CleanLrcFacts.decode_html_markup_free lrc Hfree).
  split; [done|]. split; [apply CleanLrcFacts.parse_tidy_lines|].
  rewrite CleanLrcFacts.decode_html_markup_free
    by by apply CleanLrcFacts.markup_free_tidy.
  apply CleanLrcFacts.tidy_lines_idempotent.
Qed.

(** Witness for X16: two padded lines and a blank one. *)
Lemma clean_lrc_keeps_the_parse_witness :
  let lrc := Py.join_newline ["  [00:02.00] two  "; ""; "[00:01.00]one"] in
  decode_html lrc = lrc
  ∧ _parse_lrc (_clean_lrc lrc) = _parse_lrc lrc
  ∧ _clean_lrc (_clean_lrc lrc) = _clean_lrc lrc.
Proof.
  intros lrc. exact (proj2 (clean_lrc_keeps_the_parse lrc) eq_refl).
Defined.

(** X17. Line-break tags are turned into line separators: pieces without
    "<" and "&" joined by a tag "<br>", "<br/>", "<br />" (any white space
    before an optional slash) are cleaned as if joined by newlines, and
    parse to the same lines. *)
Theorem clean_lrc_breaks_lines_at_br (t : string) (pieces : list string) :
  br_tag t → Forall (λ p, markup_free p = true) pieces →
  decode_html (join_with t pieces) = Py.join_newline pieces
  ∧ _clean_lrc (join_with t pieces) = tidy_lines (Py.join_newline pieces)
  ∧ _parse_lrc (_clean_lrc (join_with t pieces))
    = _parse_lrc (Py.join_newline pieces).
Proof.
  intros Ht Hps.
  assert (Hdec : decode_html (join_with t pieces) = Py.join_newline pieces).
  { unfold decode_html. rewrite (CleanLrcFacts.sub_br_join t pieces Ht Hps).
    assert (Hfree : markup_free (Py.join_newline pieces) = true).
    { by apply CleanLrcFacts.all_chars_join. }
    rewrite (SubFacts.sub_never_matches tag_pattern)
      by apply SubFacts.never_matches_one, CleanLrcFacts.markup_free_no_lt, Hfree.
    by do 6 rewrite (SubFacts.replace_absent _ _ _ (Py.join_newline pieces))
      by apply CleanLrcFacts.markup_free_no_amp, Hfree. }
  unfold _clean_lrc. rewrite Hdec. split; [done|]. split; [done|].
  apply CleanLrcFacts.parse_tidy_lines.
Qed.

(** Witness for X17: two lines joined by "<br />". *)
Lemma clean_lrc_breaks_lines_at_br_witness :
  _clean_lrc "[00:02.00]two<br />[00:01.00]one"
  = tidy_lines (Py.join_newline ["[00:02.00]two"; "[00:01.00]one"]).
Proof.
  refine (proj1 (proj2 (clean_lrc_breaks_lines_at_br "<br />"
                          ["[00:02.00]two"; "[00:01.00]one"] _ _))).
  - exists " ", "/". repeat split. by right.
  - repeat constructor.
Defined.

(* ===================================================================== *)
(** ** The query cleaner *)
(* ===================================================================== *)

Module CleanQueryFacts.
Import Py Text ReSub.

Lemma word_not_space c : PyStr.is_word c = true → is_space c = false.
Proof. PyFacts.by_cases_on_char c. Qed.

Lemma word_or_space_not_opening c :
  word_or_space c = true → opening_bracket c = false.
Proof. PyFacts.by_cases_on_char c. Qed.

Lemma word_or_space_not_punctuation c :
  word_or_space c = true → punctuation c = false.
Proof. PyFacts.by_cases_on_char c. Qed.

Lemma not_punctuation c :
  punctuation c = false → PyStr.is_word c || is_space c = true.
Proof. unfold punctuation. by intros ?%negb_false_iff. Qed.

Lemma space_or_word c :
  PyStr.is_word c || is_space c = true → is_space c = false →
  word_or_space c = true ∧ Ascii.eqb c " " = false.
Proof.
  destruct c as [[] [] [] [] [] [] [] []]; vm_compute; intros;
    try discriminate; by split.
Qed.

Lemma opening_not_space c : opening_bracket c = true → is_space c = false.
Proof. PyFacts.by_cases_on_char c. Qed.

Lemma plain_space_is_space c : Ascii.eqb c " " = true → is_space c = true.
Proof. PyFacts.by_cases_on_char c. Qed.

(** *** The second substitution: punctuation to spaces *)

Lemma sub_punctuation s :
  all_chars (λ c, PyStr.is_word c || is_space c)
    (sub punctuation_pattern " " s) = true.
Proof.
  unfold sub, punctuation_pattern. induction s as [|c s IH]; [done|].
  destruct (punctuation c) eqn:Hc.
  - change (String c s) with (String c EmptyString +:+ s).
    rewrite SubFacts.sub_from_match.
    + cbn [String.append all_chars]. by rewrite IH.
    + cbn [String.append]. by rewrite SubFacts.match_rest_one, Hc.
  - rewrite SubFacts.sub_from_no_match
      by by rewrite SubFacts.match_rest_one, Hc.
    cbn [all_chars]. by rewrite (not_punctuation c Hc), IH.
Qed.

(** *** The third substitution: runs of white space to one space *)

Lemma lstrip_split s :
  ∃ ws, s = ws +:+ lstrip s ∧ all_chars is_space ws = true.
Proof.
  induction s as [|c s (ws & Hs & Hws)]; [by exists EmptyString|].
  simpl. destruct (is_space c) eqn:Hc.
  - exists (String c ws). simpl. rewrite Hc. split; [congruence|done].
  - by exists EmptyString.
Qed.

Lemma lstrip_length s : (String.length (lstrip s) ≤ String.length s)%nat.
Proof.
  destruct (lstrip_split s) as (ws & Hs & _).
  rewrite Hs at 2. rewrite StringFacts.length_append. lia.
Qed.

Lemma match_spaces c s :
  match_rest spaces_pattern (String c s)
  = if is_space c then Some (lstrip s) else None.
Proof.
  unfold spaces_pattern. cbn [match_rest].
  destruct (is_space c) eqn:Hc.
  - destruct (lstrip_split s) as (ws & Hs & Hws).
    rewrite Hs at 1.
    change (String c (ws +:+ lstrip s)) with (String c ws +:+ lstrip s).
    rewrite PatternFacts.greedy_run; try done.
    + simpl. by rewrite Hc.
    + simpl. lia.
    + apply StringFacts.lstrip_head.
  - cbn [Re.greedy]. by rewrite Hc.
Qed.

Lemma match_spaces_empty : match_rest spaces_pattern EmptyString = None.
Proof. done. Qed.

Lemma sub_spaces_collapsed n : ∀ s,
  (String.length s ≤ n)%nat →
  all_chars (λ c, PyStr.is_word c || is_space c) s = true →
  collapsed s (sub spaces_pattern " " s).
Proof.
  unfold sub. induction n as [|n IH]; intros s Hn Hs.
  { destruct s; [by repeat split|simpl in Hn; lia]. }
  destruct s as [|c s]; [by repeat split|].
  simpl in Hn. cbn [all_chars] in Hs. apply andb_true_iff in Hs as [Hc Hs].
  destruct (is_space c) eqn:Hsp.
  - destruct (lstrip_split s) as (ws & Hsplit & Hws).
    assert (Hm : match_rest spaces_pattern (String c ws +:+ lstrip s)
                 = Some (lstrip s)).
    { cbn [String.append]. rewrite <- Hsplit, match_spaces. by rewrite Hsp. }
    assert (Hsub : sub_from spaces_pattern " " 0 (String c s)
                   = String " " (sub_from spaces_pattern " " 0 (lstrip s))).
    { replace (String c s) with (String c ws +:+ lstrip s)
        by (cbn [String.append]; congruence).
      by rewrite (SubFacts.sub_from_match _ _ _ _ _ Hm). }
    rewrite Hsub. clear Hsub.
    destruct (IH (lstrip s)) as (Ha & Hd & Hh).
    { pose proof (lstrip_length s). lia. }
    { eapply StringFacts.all_chars_substring; [apply StringFacts.lstrip_substring|done]. }
    unfold collapsed. rewrite Hsp. cbn [all_chars single_spaced].
    rewrite Ha, Hd. split; [done|]. split; [|by eexists].
    pose proof (StringFacts.lstrip_head s) as Hhead.
    destruct (lstrip s) as [|d r] eqn:Hl.
    + by rewrite Hh.
    + rewrite Hhead in Hh. destruct Hh as [t ->].
      assert (Ascii.eqb d " " = false) as ->; [|done].
      destruct (Ascii.eqb d " ") eqn:Hd'; [|done].
      apply plain_space_is_space in Hd'. congruence.
  - rewrite SubFacts.sub_from_no_match by by rewrite match_spaces, Hsp.
    destruct (IH s) as (Ha & Hd & Hh); [lia|done|].
    assert (Hc' : PyStr.is_word c || is_space c = true) by by rewrite Hsp.
    destruct (space_or_word c Hc' Hsp) as [Hw Hns].
    unfold collapsed. rewrite Hsp. cbn [all_chars single_spaced].
    rewrite Hw, Ha, Hd, Hns. split; [done|]. split; [|by eexists].
    by destruct (sub_from spaces_pattern " " 0 s).
Qed.

(** *** Substrings of collapsed text *)

Lemma single_spaced_suffix a b :
  single_spaced (a +:+ b) = true → single_spaced b = true.
Proof.
  induction a as [|c a IH]; [done|]. cbn [String.append single_spaced].
  intros [_ H]%andb_true_iff. by apply IH.
Qed.

Lemma single_spaced_prefix a b :
  single_spaced (a +:+ b) = true → single_spaced a = true.
Proof.
  revert b. induction a as [|c a IH]; intros b; [done|].
  cbn [String.append single_spaced]. intros [H1 H2]%andb_true_iff.
  rewrite (IH _ H2), andb_true_r.
  destruct a as [|d a]; [done|]. exact H1.
Qed.

Lemma single_spaced_substring t s :
  substring t s → single_spaced s = true → single_spaced t = true.
Proof.
  intros (a & b & ->) H. apply single_spaced_suffix in H.
  by apply single_spaced_prefix in H.
Qed.

(** *** Text that is already clean *)

Lemma bracketed_needs_opening t r :
  match_rest bracketed_pattern t = Some r →
  ∃ m d r', t = m +:+ String d r' ∧ all_chars is_space m = true
            ∧ opening_bracket d = true.
Proof.
  unfold bracketed_pattern. cbn [match_rest]. fold (one opening_bracket).
  intros (m & r1 & -> & Hm & _ & _ & Hk)%ReFacts.greedy_inv.
  change (match_rest (one opening_bracket
            :: [Rep false Re.dot 0 None; one closing_bracket]) r1 = Some r) in Hk.
  rewrite SubFacts.match_rest_one in Hk.
  destruct r1 as [|d r']; [done|].
  destruct (opening_bracket d) eqn:Hd; [|done].
  by exists m, d, r'.
Qed.

Lemma never_matches_bracketed s :
  all_chars (λ c, negb (opening_bracket c)) s = true →
  never_matches bracketed_pattern s.
Proof.
  assert (Hno : ∀ t, all_chars (λ c, negb (opening_bracket c)) t = true →
                     match_rest bracketed_pattern t = None).
  { intros t Ht. destruct (match_rest bracketed_pattern t) as [r|] eqn:Hm; [|done].
    apply bracketed_needs_opening in Hm as (m & d & r' & -> & _ & Hd).
    rewrite StringFacts.all_chars_append in Ht.
    apply andb_true_iff in Ht as [_ Ht]. cbn [all_chars] in Ht.
    by rewrite Hd in Ht. }
  induction s as [|c s IH]; cbn [never_matches]; intros Hs; [by apply Hno|].
  split; [by apply Hno|]. cbn [all_chars] in Hs.
  apply andb_true_iff in Hs as [_ Hs]. by apply IH.
Qed.

Lemma sub_spaces_fixed s :
  all_chars word_or_space s = true → single_spaced s = true →
  sub spaces_pattern " " s = s.
Proof.
  unfold sub. induction s as [|c s IH]; [done|].
  cbn [all_chars single_spaced].
  intros [Hc Hs]%andb_true_iff [Hd Hss]%andb_true_iff.
  destruct (is_space c) eqn:Hsp.
  - assert (Hc' : Ascii.eqb c " " = true).
    { unfold word_or_space in Hc. apply orb_true_iff in Hc as [Hw|]; [|done].
      apply word_not_space in Hw. congruence. }
    apply Ascii.eqb_eq in Hc'. subst c.
    assert (Hl : lstrip s = s).
    { destruct s as [|d s]; [done|]. cbn [all_chars] in Hs.
      apply andb_true_iff in Hs as [Hdw _].
      apply PyFacts.lstrip_no_leading_space.
      rewrite Ascii.eqb_refl in Hd. cbn [andb] in Hd.
      apply negb_true_iff in Hd.
      unfold word_or_space in Hdw. rewrite Hd, orb_false_r in Hdw.
      by apply word_not_space. }
    change (String " " s) with (String " " EmptyString +:+ s) at 1.
    rewrite SubFacts.sub_from_match.
    + cbn [String.append]. by rewrite IH.
    + cbn [String.append]. by rewrite match_spaces, Hsp, Hl.
  - rewrite SubFacts.sub_from_no_match by by rewrite match_spaces, Hsp.
    by rewrite IH.
Qed.

Lemma clean_query_clean text : clean_text (_clean_query text).
Proof.
  unfold _clean_query.
  set (t1 := sub bracketed_pattern EmptyString text).
  pose proof (sub_punctuation t1) as H2.
  set (t2 := sub punctuation_pattern " " t1) in *.
  destruct (sub_spaces_collapsed _ t2 (le_n _) H2) as (Ha & Hd & _).
  set (t3 := sub spaces_pattern " " t2) in *.
  split; [|split].
  - eapply StringFacts.all_chars_substring; [apply StringFacts.strip_substring|done].
  - eapply single_spaced_substring; [apply StringFacts.strip_substring|done].
  - apply StringFacts.strip_idempotent.
Qed.

End CleanQueryFacts.

(** X18. Whatever the input, [_clean_query] returns words separated by
    single spaces: only word characters and plain spaces, never two spaces
    in a row, and no space at either end. *)
Theorem clean_query_gives_clean_text (text : string) :
  clean_text (_clean_query text).
Proof. apply CleanQueryFacts.clean_query_clean. Qed.

(** X19. [_clean_query] leaves clean text as it is, so cleaning twice is
    cleaning once. *)
Theorem clean_query_is_idempotent (text : string) :
  (clean_text text → _clean_query text = text)
  ∧ _clean_query (_clean_query text) = _clean_query text.
Proof.
  assert (Hfix : ∀ s, clean_text s → _clean_query s = s).
  { intros s (Ha & Hd & Hs). unfold _clean_query.
    rewrite (SubFacts.sub_never_matches bracketed_pattern).
    - rewrite (SubFacts.sub_never_matches punctuation_pattern).
      + by rewrite CleanQueryFacts.sub_spaces_fixed.
      + apply SubFacts.never_matches_one.
        eapply CleanLrcFacts.all_chars_impl; [|exact Ha].
        intros c Hc. by rewrite CleanQueryFacts.word_or_space_not_punctuation.
    - apply CleanQueryFacts.never_matches_bracketed.
      eapply CleanLrcFacts.all_chars_impl; [|exact Ha].
      intros c Hc. by rewrite CleanQueryFacts.word_or_space_not_opening. }
  split; [apply Hfix|]. apply Hfix, CleanQueryFacts.clean_query_clean.
Qed.

(** Witness for X19: a query that is already clean. *)
Lemma clean_query_is_idempotent_witness :
  _clean_query "Daft Punk One More Time" = "Daft Punk One More Time".
Proof.
  apply (proj1 (clean_query_is_idempotent "Daft Punk One More Time")).
  repeat split.
Defined.

(* ===================================================================== *)
(** ** The query cleaner and bracketed parts *)
(* ===================================================================== *)

Module BracketFacts.
Import Py Text ReSub.

Lemma rstrip_spaces u : all_chars is_space u = true → rstrip u = EmptyString.
Proof.
  induction u as [|c u IH]; [done|]. cbn [all_chars rstrip].
  intros [Hc Hu]%andb_true_iff. by rewrite (IH Hu), Hc.
Qed.

Lemma rstrip_append_spaces a u :
  all_chars is_space u = true → rstrip (a +:+ u) = rstrip a.
Proof.
  intros Hu. induction a as [|c a IH]; [by apply rstrip_spaces|].
  cbn [String.append rstrip]. by rewrite IH.
Qed.

Lemma rstrip_length a : (String.length (rstrip a) ≤ String.length a)%nat.
Proof.
  destruct (StringFacts.rstrip_prefix a) as [b Hb].
  rewrite Hb at 2. rewrite StringFacts.length_append. lia.
Qed.

(** When a text does not end in white space, none of its non-empty
    suffixes is blank. *)
Lemma suffix_not_blank a c u :
  rstrip (a +:+ String c u) = a +:+ String c u →
  all_chars is_space (String c u) = false.
Proof.
  intros Hr. destruct (all_chars is_space (String c u)) eqn:Hu; [|done].
  rewrite rstrip_append_spaces in Hr by done.
  pose proof (rstrip_length a) as Hl. rewrite Hr in Hl.
  rewrite StringFacts.length_append in Hl. simpl in Hl. lia.
Qed.

Lemma lstrip_spaces_prefix m r :
  all_chars is_space m = true → lstrip (m +:+ r) = lstrip r.
Proof.
  induction m as [|c m IH]; [done|]. cbn [all_chars String.append lstrip].
  intros [Hc Hm]%andb_true_iff. rewrite Hc. by apply IH.
Qed.

Lemma lstrip_append_nonblank u t :
  all_chars is_space u = false → lstrip (u +:+ t) = lstrip u +:+ t.
Proof.
  induction u as [|c u IH]; [done|]. cbn [all_chars String.append lstrip].
  destruct (is_space c); [|done]. cbn [andb]. apply IH.
Qed.

Lemma lstrip_nonblank u :
  all_chars is_space u = false → ∃ d r, lstrip u = String d r.
Proof.
  intros Hu. destruct (lstrip u) as [|d r] eqn:Hl; [|by eexists _, _].
  destruct (CleanQueryFacts.lstrip_split u) as (ws & Hs & Hws).
  rewrite Hl, StringFacts.append_empty_r in Hs. subst ws. congruence.
Qed.

(** Inside a text with no opening bracket that does not end in white
    space, the bracket pattern cannot start a match, whatever follows the
    text. *)
Lemma no_match_inside base tail a1 c a2 :
  all_chars (λ c, negb (opening_bracket c)) base = true →
  rstrip base = base →
  base = a1 +:+ String c a2 →
  match_rest bracketed_pattern (String c a2 +:+ tail) = None.
Proof.
  intros Hno Hr ->.
  destruct (match_rest bracketed_pattern (String c a2 +:+ tail)) as [x|] eqn:Hm;
    [|done].
  apply CleanQueryFacts.bracketed_needs_opening in Hm
    as (m & d & r' & Heq & Hm & Hd).
  pose proof (suffix_not_blank _ _ _ Hr) as Hu.
  assert (Hl : lstrip (String c a2 +:+ tail) = String d r').
  { rewrite Heq, lstrip_spaces_prefix by done.
    apply PyFacts.lstrip_no_leading_space.
    by apply CleanQueryFacts.opening_not_space. }
  rewrite lstrip_append_nonblank in Hl by done.
  destruct (lstrip_nonblank _ Hu) as (e & r'' & He).
  rewrite He in Hl. cbn [String.append] in Hl. injection Hl as -> _.
  rewrite StringFacts.all_chars_append in Hno.
  apply andb_true_iff in Hno as [_ Hno].
  assert (Hd' : all_chars (λ c, negb (opening_bracket c)) (String d r'') = true).
  { rewrite <- He.
    eapply StringFacts.all_chars_substring; [apply StringFacts.lstrip_substring|done]. }
  cbn [all_chars] in Hd'. by rewrite Hd in Hd'.
Qed.

(** The lazy item runs up to the first closing bracket. *)
Lemma lazy_until_closing inner cl rest :
  all_chars (λ c, Re.dot c && negb (closing_bracket c)) inner = true →
  closing_bracket cl = true →
  lazy Re.dot 0 None (inner +:+ String cl rest)
    (λ _ r, match_rest [one closing_bracket] r)
  = Some rest.
Proof.
  intros Hin Hcl. induction inner as [|c inner IH].
  - cbn [String.append lazy]. by rewrite SubFacts.match_rest_one, Hcl.
  - cbn [all_chars] in Hin.
    apply andb_true_iff in Hin as [[Hdot Hc]%andb_true_iff Hin].
    apply negb_true_iff in Hc.
    cbn [String.append lazy]. rewrite SubFacts.match_rest_one, Hc, Hdot.
    cbn [andb Re.may_take]. change (Nat.pred <$> None) with (@None nat).
    by apply IH.
Qed.

(** The bracket pattern takes white space, an opening bracket, and
    everything up to the first closing bracket. *)
Lemma bracketed_matches ws op inner cl rest :
  all_chars is_space ws = true → opening_bracket op = true →
  all_chars (λ c, Re.dot c && negb (closing_bracket c)) inner = true →
  closing_bracket cl = true →
  match_rest bracketed_pattern (ws +:+ String op (inner +:+ String cl rest))
  = Some rest.
Proof.
  intros Hws Hop Hin Hcl. unfold bracketed_pattern. cbn [match_rest].
  assert (Hk : match_rest [one opening_bracket; Rep false Re.dot 0 None;
                           one closing_bracket]
                 (String op (inner +:+ String cl rest)) = Some rest).
  { rewrite SubFacts.match_rest_one, Hop. cbn [match_rest].
    by apply lazy_until_closing. }
  rewrite PatternFacts.greedy_run; try done; try lia;
    try (by apply CleanQueryFacts.opening_not_space); by rewrite Hk.
Qed.

Lemma sub_bracketed_suffix base ws op inner cl :
  all_chars (λ c, negb (opening_bracket c)) base = true →
  rstrip base = base →
  all_chars is_space ws = true → opening_bracket op = true →
  all_chars (λ c, Re.dot c && negb (closing_bracket c)) inner = true →
  closing_bracket cl = true →
  sub bracketed_pattern EmptyString
    (base +:+ ws +:+ String op (inner +:+ String cl EmptyString))
  = base.
Proof.
  intros Hno Hr Hws Hop Hin Hcl. unfold sub.
  rewrite SubFacts.sub_from_prefix
    by (intros a1 c a2 Heq; by eapply no_match_inside).
  rewrite <- (StringFacts.append_empty_r base) at 2. f_equal.
  pose proof (bracketed_matches ws op inner cl EmptyString Hws Hop Hin Hcl) as Hm.
  destruct (ws +:+ String op (inner +:+ String cl EmptyString)) as [|c m] eqn:HT.
  { by destruct ws. }
  rewrite <- (StringFacts.append_empty_r (String c m)) in Hm |- *.
  by rewrite (SubFacts.sub_from_match _ _ _ _ _ Hm).
Qed.

End BracketFacts.

(** X20. A bracketed part at the end of a text is dropped: when [base]
    has no opening bracket and does not end in white space, cleaning
    [base], optional white space, an opening bracket, any text without
    closing bracket or newline, and a closing bracket gives the same as
    cleaning [base] alone. *)
Theorem clean_query_drops_trailing_brackets
    (base ws inner : string) (op cl : ascii) :
  Text.all_chars (λ c, negb (opening_bracket c)) base = true →
  Py.rstrip base = base →
  Text.all_chars Py.is_space ws = true →
  opening_bracket op = true → closing_bracket cl = true →
  Text.all_chars (λ c, Re.dot c && negb (closing_bracket c)) inner = true →
  _clean_query (base +:+ ws +:+ String op (inner +:+ String cl EmptyString))
  = _clean_query base.
Proof.
  intros Hno Hr Hws Hop Hcl Hin. unfold _clean_query.
  rewrite BracketFacts.sub_bracketed_suffix by done.
  by rewrite (SubFacts.sub_never_matches bracketed_pattern)
    by by apply CleanQueryFacts.never_matches_bracketed.
Qed.

(** Witness for X20: a title with a remaster note. *)
Lemma clean_query_drops_trailing_brackets_witness :
  _clean_query "Hey Jude (Remastered 2015)" = _clean_query "Hey Jude".
Proof.
  exact (clean_query_drops_trailing_brackets "Hey Jude" " " "Remastered 2015"
           "(" ")" eq_refl eq_refl eq_refl eq_refl eq_refl eq_refl).
Defined.

(* ===================================================================== *)
(** ** The artist-name cleaner *)
(* ===================================================================== *)

Module ArtistFacts.
Import Py Text ReSub.

Lemma last_char_append a b :
  b ≠ EmptyString → last_char (a +:+ b) = last_char b.
Proof.
  intros Hb. induction a as [|c a IH]; [done|].
  cbn [String.append last_char]. rewrite IH.
  destruct (a +:+ b) eqn:Hab; [|done].
  destruct a; [|done]. simpl in Hab. by subst.
Qed.

(** Two ways of cutting a string with equally long right parts are the
    same cut. *)
Lemma append_eq_length_r a : ∀ b c d,
  a +:+ c = b +:+ d → String.length c = String.length d → a = b ∧ c = d.
Proof.
  induction a as [|x a IH]; intros b c d Heq Hlen.
  - destruct b as [|y b]; [done|]. simpl in Heq. subst c.
    simpl in Hlen. rewrite StringFacts.length_append in Hlen. lia.
  - destruct b as [|y b].
    + simpl in Heq. subst d. simpl in Hlen.
      rewrite StringFacts.length_append in Hlen. lia.
    + simpl in Heq. injection Heq as -> Heq.
      destruct (IH _ _ _ Heq Hlen) as [-> ->]. done.
Qed.

Lemma rstrip_nonspace_end x d :
  is_space d = false →
  rstrip (x +:+ String d EmptyString) = x +:+ String d EmptyString.
Proof.
  intros Hd. induction x as [|c x IH]; simpl; [by rewrite Hd|].
  rewrite IH. by destruct (x +:+ String d EmptyString) eqn:Hx; [destruct x|].
Qed.

Lemma spells_length lower s :
  spells lower s = true → String.length s = String.length lower.
Proof.
  revert s. induction lower as [|l lower IH]; intros [|c s]; simpl; try done.
  intros [_ H]%andb_true_iff. by rewrite (IH s H).
Qed.

Lemma at_end_cases r :
  at_end r = true → r = EmptyString ∨ r = String newline EmptyString.
Proof.
  destruct r as [|c [|? ?]]; simpl; try done; [by left|].
  intros ->%Ascii.eqb_eq. by right.
Qed.

Lemma match_rest_greedy cl lo hi p s :
  match_rest (Rep true cl lo hi :: p) s
  = Re.greedy cl lo hi s (λ _ r, match_rest p r).
Proof. done. Qed.

Lemma match_rest_letter l p s :
  match_rest (letter l :: p) s
  = match s with
    | String c s' =>
        if Ascii.eqb c l || Ascii.eqb c (ascii_of_N (N_of_ascii l - 32))
        then match_rest p s' else None
    | EmptyString => None
    end.
Proof. unfold letter. by rewrite SubFacts.match_rest_one. Qed.

Lemma match_rest_lit c p s :
  match_rest (lit c :: p) s
  = match s with
    | String d s' => if Ascii.eqb c d then match_rest p s' else None
    | EmptyString => None
    end.
Proof. unfold lit. by rewrite SubFacts.match_rest_one. Qed.

(** What the VEVO pattern matches: the four letters in any case, at the
    end of the text. *)
Lemma vevo_matches t r :
  match_rest vevo_pattern t = Some r ↔
  ∃ v, t = v +:+ r ∧ spells "vevo" v = true ∧ at_end r = true.
Proof.
  unfold vevo_pattern. split.
  - rewrite match_rest_letter. destruct t as [|c1 t]; [done|].
    destruct (_ || _) eqn:H1 in |- *; [|done].
    rewrite match_rest_letter. destruct t as [|c2 t]; [done|].
    destruct (_ || _) eqn:H2 in |- *; [|done].
    rewrite match_rest_letter. destruct t as [|c3 t]; [done|].
    destruct (_ || _) eqn:H3 in |- *; [|done].
    rewrite match_rest_letter. destruct t as [|c4 t]; [done|].
    destruct (_ || _) eqn:H4 in |- *; [|done].
    cbn [match_rest]. destruct (at_end t) eqn:He; [|done]. intros [= <-].
    exists (String c1 (String c2 (String c3 (String c4 EmptyString)))).
    split; [done|]. split; [|done]. cbn [spells].
    by rewrite H1, H2, H3, H4.
  - intros (v & -> & Hv & Hr). pose proof (spells_length _ _ Hv) as L.
    destruct v as [|c1 [|c2 [|c3 [|c4 [|? ?]]]]]; try (simpl in L; lia).
    cbn [spells] in Hv.
    apply andb_true_iff in Hv as [H1 Hv]. apply andb_true_iff in Hv as [H2 Hv].
    apply andb_true_iff in Hv as [H3 Hv]. apply andb_true_iff in Hv as [H4 _].
    cbn [String.append]. rewrite !match_rest_letter, H1, H2, H3, H4.
    cbn [match_rest]. by rewrite Hr.
Qed.

(** What the Topic pattern matches: white space, a dash, white space, the
    five letters in any case, at the end of the text. *)
Lemma topic_matches_only t r :
  match_rest topic_pattern t = Some r →
  ∃ w w' t5, t = w +:+ "-" +:+ w' +:+ t5 +:+ r
             ∧ all_chars is_space w = true ∧ all_chars is_space w' = true
             ∧ spells "topic" t5 = true ∧ at_end r = true.
Proof.
  unfold topic_pattern. rewrite match_rest_greedy.
  intros (w & r1 & -> & Hw & _ & _ & Hk)%ReFacts.greedy_inv.
  rewrite match_rest_lit in Hk. destruct r1 as [|d r1]; [done|].
  destruct (Ascii.eqb_spec "-" d) as [<-|]; [|done].
  rewrite match_rest_greedy in Hk.
  apply ReFacts.greedy_inv in Hk as (w' & r2 & -> & Hw' & _ & _ & Hk).
  rewrite match_rest_letter in Hk. destruct r2 as [|c1 t]; [done|].
  destruct (_ || _) eqn:H1 in Hk; [|done].
  rewrite match_rest_letter in Hk. destruct t as [|c2 t]; [done|].
  destruct (_ || _) eqn:H2 in Hk; [|done].
  rewrite match_rest_letter in Hk. destruct t as [|c3 t]; [done|].
  destruct (_ || _) eqn:H3 in Hk; [|done].
  rewrite match_rest_letter in Hk. destruct t as [|c4 t]; [done|].
  destruct (_ || _) eqn:H4 in Hk; [|done].
  rewrite match_rest_letter in Hk. destruct t as [|c5 t]; [done|].
  destruct (_ || _) eqn:H5 in Hk; [|done].
  cbn [match_rest] in Hk. destruct (at_end t) eqn:He; [|done].
  injection Hk as <-.
  exists w, w', (String c1 (String c2 (String c3 (String c4 (String c5 EmptyString))))).
  repeat split; try done. cbn [spells]. by rewrite H1, H2, H3, H4, H5.
Qed.

Lemma topic_matches w w' t5 :
  all_chars is_space w = true → all_chars is_space w' = true →
  spells "topic" t5 = true →
  match_rest topic_pattern (w +:+ "-" +:+ w' +:+ t5) = Some EmptyString.
Proof.
  intros Hw Hw' Ht. pose proof (spells_length _ _ Ht) as L.
  destruct t5 as [|c1 [|c2 [|c3 [|c4 [|c5 [|? ?]]]]]]; try (simpl in L; lia).
  cbn [spells] in Ht.
  apply andb_true_iff in Ht as [H1 Ht]. apply andb_true_iff in Ht as [H2 Ht].
  apply andb_true_iff in Ht as [H3 Ht]. apply andb_true_iff in Ht as [H4 Ht].
  apply andb_true_iff in Ht as [H5 _].
  assert (Hletters :
    match_rest [letter "t"; letter "o"; letter "p"; letter "i"; letter "c";
                EndOfString]
      (String c1 (String c2 (String c3 (String c4 (String c5 EmptyString)))))
    = Some EmptyString).
  { by rewrite !match_rest_letter, H1, H2, H3, H4, H5. }
  assert (Hsecond :
    match_rest [Rep true is_space 0 None; letter "t"; letter "o"; letter "p";
                letter "i"; letter "c"; EndOfString]
      (w' +:+ String c1 (String c2 (String c3 (String c4 (String c5 EmptyString)))))
    = Some EmptyString).
  { rewrite match_rest_greedy.
    rewrite PatternFacts.greedy_run; try done; try lia.
    destruct (is_space c1) eqn:Hs; [|done]. exfalso. revert H1 Hs. clear.
    destruct c1 as [[] [] [] [] [] [] [] []]; vm_compute; congruence. }
  unfold topic_pattern. rewrite match_rest_greedy.
  change ("-" +:+ w' +:+ ?x) with (String "-" (w' +:+ x)).
  rewrite PatternFacts.greedy_run; try done; try lia;
    by rewrite match_rest_lit, Ascii.eqb_refl.
Qed.

Lemma spells_last_topic t5 :
  spells "topic" t5 = true →
  ∃ c, last_char t5 = Some c ∧ c ≠ newline
       ∧ (Ascii.eqb c "o" || Ascii.eqb c "O") = false.
Proof.
  intros H. pose proof (spells_length _ _ H) as L.
  destruct t5 as [|c1 [|c2 [|c3 [|c4 [|c5 [|? ?]]]]]]; try (simpl in L; lia).
  cbn [spells] in H.
  apply andb_true_iff in H as [_ H]. apply andb_true_iff in H as [_ H].
  apply andb_true_iff in H as [_ H]. apply andb_true_iff in H as [_ H].
  apply andb_true_iff in H as [H _].
  exists c5. split; [done|]. revert H. clear.
  destruct c5 as [[] [] [] [] [] [] [] []]; vm_compute; intros;
    try discriminate; split; congruence.
Qed.

Lemma spells_last_vevo v :
  spells "vevo" v = true →
  ∃ c, last_char v = Some c ∧ c ≠ newline
       ∧ (Ascii.eqb c "o" || Ascii.eqb c "O") = true.
Proof.
  intros H. pose proof (spells_length _ _ H) as L.
  destruct v as [|c1 [|c2 [|c3 [|c4 [|? ?]]]]]; try (simpl in L; lia).
  cbn [spells] in H.
  apply andb_true_iff in H as [_ H]. apply andb_true_iff in H as [_ H].
  apply andb_true_iff in H as [_ H]. apply andb_true_iff in H as [H _].
  exists c4. split; [done|]. revert H. clear.
  destruct c4 as [[] [] [] [] [] [] [] []]; vm_compute; intros;
    try discriminate; split; congruence.
Qed.

Lemma spells_nonempty lower s l :
  spells (String l lower) s = true → s ≠ EmptyString.
Proof. by destruct s. Qed.

(** A pattern that matches at the start of no suffix of a text matches
    nowhere in it. *)
Lemma never_matches_by_suffixes p s :
  (∀ a b, s = a +:+ b → match_rest p b = None) → never_matches p s.
Proof.
  induction s as [|c s IH]; intros H; cbn [never_matches].
  - by apply (H EmptyString).
  - split; [by apply (H EmptyString)|].
    apply IH. intros a b ->. by apply (H (String c a)).
Qed.

(** The Topic pattern matches nowhere in a text that ends in the letters
    of "vevo". *)
Lemma topic_never_before_vevo base v :
  spells "vevo" v = true → never_matches topic_pattern (base +:+ v).
Proof.
  intros Hv. apply never_matches_by_suffixes. intros a b Heq.
  destruct (match_rest topic_pattern b) as [r|] eqn:Hm; [|done]. exfalso.
  apply topic_matches_only in Hm as (w & w' & t5 & -> & _ & _ & Ht & Hr).
  destruct (spells_last_vevo v Hv) as (o & Ho & Honl & Hoo).
  destruct (spells_last_topic t5 Ht) as (c & Hc & Hcnl & Hco).
  assert (Hlast : last_char (base +:+ v) = Some o).
  { rewrite last_char_append; [done|]. by eapply spells_nonempty. }
  rewrite Heq in Hlast.
  apply at_end_cases in Hr as [-> | ->].
  - rewrite StringFacts.append_empty_r in Hlast.
    rewrite <- !StringFacts.append_assoc in Hlast.
    rewrite last_char_append in Hlast by by eapply spells_nonempty.
    congruence.
  - rewrite <- !StringFacts.append_assoc in Hlast.
    rewrite last_char_append in Hlast by done. simpl in Hlast. congruence.
Qed.

(** The VEVO pattern cannot start a match before the final letters. *)
Lemma vevo_no_match_inside c u v :
  spells "vevo" v = true →
  match_rest vevo_pattern (String c u +:+ v) = None.
Proof.
  intros Hv.
  destruct (match_rest vevo_pattern (String c u +:+ v)) as [r|] eqn:Hm; [|done].
  exfalso. apply vevo_matches in Hm as (v' & Heq & Hv' & Hr).
  pose proof (spells_length _ _ Hv) as Lv.
  pose proof (spells_length _ _ Hv') as Lv'.
  assert (Hlen : String.length (String c u +:+ v) = String.length (v' +:+ r))
    by by rewrite Heq.
  rewrite !StringFacts.length_append, Lv, Lv' in Hlen. simpl in Hlen.
  apply at_end_cases in Hr as [-> | ->]; [simpl in Hlen; lia|].
  destruct (spells_last_vevo v Hv) as (o & Ho & Honl & _).
  assert (Hlast : last_char (String c u +:+ v) = Some o).
  { rewrite last_char_append; [done|]. by eapply spells_nonempty. }
  rewrite Heq, last_char_append in Hlast by done. simpl in Hlast. congruence.
Qed.

Lemma sub_vevo_suffix base v :
  spells "vevo" v = true → sub vevo_pattern EmptyString (base +:+ v) = base.
Proof.
  intros Hv. unfold sub. rewrite SubFacts.sub_from_prefix.
  - rewrite <- (StringFacts.append_empty_r base) at 2. f_equal.
    assert (Hm : match_rest vevo_pattern (v +:+ EmptyString) = Some EmptyString).
    { apply vevo_matches. by exists v. }
    destruct v as [|c v]; [done|].
    by rewrite <- (StringFacts.append_empty_r (String c v)),
      (SubFacts.sub_from_match _ _ _ _ _ Hm).
  - intros a1 c a2 _. by apply vevo_no_match_inside.
Qed.

(** The Topic pattern cannot start a match inside a text that does not end
    in white space, when the text is followed by one dash and "Topic". *)
Lemma topic_no_match_inside base a1 c a2 ws1 ws2 topic :
  rstrip base = base → base = a1 +:+ String c a2 →
  all_chars is_space ws1 = true → all_chars is_space ws2 = true →
  spells "topic" topic = true →
  match_rest topic_pattern (String c a2 +:+ ws1 +:+ "-" +:+ ws2 +:+ topic) = None.
Proof.
  intros Hr -> Hws1 Hws2 Htopic.
  destruct (match_rest topic_pattern _) as [r|] eqn:Hm; [|done]. exfalso.
  apply topic_matches_only in Hm as (w & w' & t5 & Heq & Hw & Hw' & Ht & Hend).
  pose proof (BracketFacts.suffix_not_blank _ _ _ Hr) as Hu.
  destruct (spells_last_topic topic Htopic) as (e & He & Henl & _).
  assert (Hlast : last_char (String c a2 +:+ ws1 +:+ "-" +:+ ws2 +:+ topic)
                  = Some e).
  { rewrite <- !StringFacts.append_assoc.
    rewrite last_char_append; [done|]. by eapply spells_nonempty. }
  apply at_end_cases in Hend as [-> | ->]; cycle 1.
  { rewrite Heq, <- !StringFacts.append_assoc in Hlast.
    rewrite last_char_append in Hlast by done. simpl in Hlast. congruence. }
  rewrite StringFacts.append_empty_r in Heq.
  rewrite <- !StringFacts.append_assoc in Heq.
  apply append_eq_length_r in Heq as [Heq _];
    [|by rewrite (spells_length _ _ Htopic), (spells_length _ _ Ht)].
  assert (Hstrip : rstrip (((String c a2 +:+ ws1) +:+ "-") +:+ ws2)
                   = rstrip ((w +:+ "-") +:+ w')) by by rewrite Heq.
  rewrite (BracketFacts.rstrip_append_spaces _ ws2) in Hstrip by done.
  rewrite (BracketFacts.rstrip_append_spaces _ w') in Hstrip by done.
  rewrite !rstrip_nonspace_end in Hstrip by done.
  apply append_eq_length_r in Hstrip as [Hstrip _]; [|done].
  rewrite <- Hstrip, StringFacts.all_chars_append in Hw.
  apply andb_true_iff in Hw as [Hw _]. congruence.
Qed.

Lemma sub_topic_suffix base ws1 ws2 topic :
  rstrip base = base →
  all_chars is_space ws1 = true → all_chars is_space ws2 = true →
  spells "topic" topic = true →
  sub topic_pattern EmptyString (base +:+ ws1 +:+ "-" +:+ ws2 +:+ topic) = base.
Proof.
  intros Hr Hws1 Hws2 Ht. unfold sub. rewrite SubFacts.sub_from_prefix.
  - rewrite <- (StringFacts.append_empty_r base) at 2. f_equal.
    pose proof (topic_matches ws1 ws2 topic Hws1 Hws2 Ht) as Hm.
    destruct (ws1 +:+ "-" +:+ ws2 +:+ topic) as [|c m] eqn:HT.
    { by destruct ws1. }
    rewrite <- (StringFacts.append_empty_r (String c m)) in Hm |- *.
    by rewrite (SubFacts.sub_from_match _ _ _ _ _ Hm).
  - intros a1 c a2 Heq. by eapply topic_no_match_inside.
Qed.

End ArtistFacts.

(** X21. The suffix "- Topic" of auto-generated channels is removed: for a
    text [base] that does not end in white space, cleaning [base] followed
    by optional white space, a dash, optional white space and "topic" in
    any mix of cases gives what the rest of the cleaner (the VEVO step and
    the stripping) gives on [base]; only the last such suffix is
    removed. *)
Theorem clean_artist_name_drops_topic (base ws1 ws2 topic : string) :
  Py.rstrip base = base →
  Text.all_chars Py.is_space ws1 = true →
  Text.all_chars Py.is_space ws2 = true →
  spells "topic" topic = true →
  _clean_artist_name (base +:+ ws1 +:+ "-" +:+ ws2 +:+ topic)
  = Py.strip (ReSub.sub vevo_pattern EmptyString base).
Proof.
  intros Hr Hws1 Hws2 Ht. unfold _clean_artist_name.
  by rewrite ArtistFacts.sub_topic_suffix.
Qed.

(** Witness for X21: an artist with a dash in the name. *)
Lemma clean_artist_name_drops_topic_witness :
  _clean_artist_name "Jay-Z - Topic" = "Jay-Z".
Proof.
  exact (clean_artist_name_drops_topic "Jay-Z" " " " " "Topic"
           eq_refl eq_refl eq_refl eq_refl).
Defined.

(** X22. The suffix "VEVO" is removed: for every text [base], cleaning
    [base] followed by "vevo" in any mix of cases gives [base] stripped
    (a "- Topic" inside [base] stays, since it is no longer at the
    end). *)
Theorem clean_artist_name_drops_vevo (base v : string) :
  spells "vevo" v = true →
  _clean_artist_name (base +:+ v) = Py.strip base.
Proof.
  intros Hv. unfold _clean_artist_name.
  rewrite (SubFacts.sub_never_matches topic_pattern)
    by by apply ArtistFacts.topic_never_before_vevo.
  by rewrite ArtistFacts.sub_vevo_suffix.
Qed.

(** Witness for X22: a channel name in mixed case. *)
Lemma clean_artist_name_drops_vevo_witness :
  _clean_artist_name "AdeleVevo" = "Adele".
Proof.
  exact (clean_artist_name_drops_vevo "Adele" "Vevo" eq_refl).
Defined.
